(** * Cluster teardown: the orchestrator of [ClusterCleanup] and the early
      [ECSClusterManager], embedded as effect logs over a remote world.

    The JavaScript of [ClusterCleanup] talks to two remote control planes
    (ECS and CloudFormation) and reports progress on one event emitter.
    Here a run is a pure function of the replies of the remote side: every
    method returns, next to its value, the list of effects it performed in the
    order they happen (events emitted, remote calls issued, suspension points
    and console lines). *)

From Stdlib Require Import List String NArith Arith Bool Lia.
Import ListNotations.
Local Open Scope string_scope.
Local Open Scope list_scope.
Local Open Scope nat_scope.

(** ** Data of the remote control planes (only the fields the code reads) *)

Inductive LaunchType : Type := EC2 | FARGATE.

Record Error : Type := mkError { name : string; message : string }.

Definition new_Error (msg : string) : Error := mkError "Error" msg.
Definition TypeError (msg : string) : Error := mkError "TypeError" msg.

Record Cluster : Type := mkCluster { clusterName : string; status : string }.
Record Stack : Type := mkStack { StackId : string; StackName : string }.
Record Service : Type := mkService { serviceArn : string; serviceName : string }.
Record Task : Type := mkTask { taskArn : string }.
Record ContainerInstance : Type :=
  mkContainerInstance { containerInstanceArn : string }.
Record StackEvent : Type :=
  mkStackEvent { EventId : string; LogicalResourceId : string;
                 ResourceStatus : string }.
Record StackResource : Type :=
  mkStackResource { resourceLogicalId : string; resourceStatus : string }.

(** Modelled from the spec: the enumeration [ClusterCleanupEvents] is imported
    by the orchestrator from the package index, whose declaration of it is not
    part of the sources at hand; the kinds are those the orchestrator emits
    and section 6 of the specification lists. *)
Inductive ClusterCleanupEvents : Type :=
| start | stackFound | servicesFound | servicesScaledDown
| tasksFound | tasksStopped | instancesFound | instancesDeregistered
| servicesDeleted | stackDeletionStarted | stackDeletionDone
| resourceDeleted | clusterDeleted | done | doneWithError | error.

Definition kind_eqb (a b : ClusterCleanupEvents) : bool :=
  match a, b with
  | start, start | stackFound, stackFound | servicesFound, servicesFound
  | servicesScaledDown, servicesScaledDown | tasksFound, tasksFound
  | tasksStopped, tasksStopped | instancesFound, instancesFound
  | instancesDeregistered, instancesDeregistered
  | servicesDeleted, servicesDeleted
  | stackDeletionStarted, stackDeletionStarted
  | stackDeletionDone, stackDeletionDone | resourceDeleted, resourceDeleted
  | clusterDeleted, clusterDeleted | done, done
  | doneWithError, doneWithError | error, error => true
  | _, _ => false
  end.

(** The second argument of [emit]. *)
Inductive payload : Type :=
| PString (s : string)
| PArns (l : list string)
| PStack (s : Stack)
| PServices (l : list Service)
| PTasks (l : list Task)
| PInstances (l : list ContainerInstance)
| PStackEvent (e : StackEvent)
| PCluster (c : Cluster)
| PUndefined
| PError (e : Error)
| PElapsed (cluster : string).

(** The parameters of each remote operation, as the code builds them. *)
Inductive request : Type :=
| DescribeClusters (clusters : list string)
| ListServices (cluster : string) (launchType : LaunchType)
| UpdateService (cluster service : string) (desiredCount : N)
| ListTasks (cluster : string)
| StopTask (task cluster reason : string)
| ListContainerInstances (cluster : string)
| DeregisterContainerInstance (cluster containerInstance : string) (force : bool)
| DeleteService (cluster service : string)
| DeleteCluster (cluster : string)
| DescribeStacks (StackName : string)
| DeleteStack (StackName : string)
| DescribeStackEvents (StackName : string)
| DescribeStackResources (StackName LogicalResourceId : string)
| WaitForStackDeleteComplete (StackName : string).

(** A call that changes the remote side. *)
Definition is_mutation (r : request) : bool :=
  match r with
  | UpdateService _ _ _ | StopTask _ _ _ | DeregisterContainerInstance _ _ _
  | DeleteService _ _ | DeleteCluster _ | DeleteStack _ => true
  | _ => false
  end.

(** The launch-type scope a request is restricted to, when it names one. *)
Definition request_scope (r : request) : option LaunchType :=
  match r with
  | ListServices _ l => Some l
  | _ => None
  end.

(** The stack a stack operation addresses. *)
Definition request_stack (r : request) : option string :=
  match r with
  | DescribeStacks n | DeleteStack n | DescribeStackEvents n
  | DescribeStackResources n _ | WaitForStackDeleteComplete n => Some n
  | _ => None
  end.

(** What a run does, in order: [Await] marks a suspension point of an
    [async] function, [ConsoleLog] a line on the console. *)
Inductive effect : Type :=
| Emit (kind : ClusterCleanupEvents) (p : payload)
| Call (r : request)
| Await
| ConsoleLog (p : payload).

(** The remote side.  Each field is the settlement of the promise of one
    operation: [inl e] a rejection, [inr v] the field of the response the code
    reads.  The periodic check of the poller asks for the event history many
    times, so that reply depends on the number of the check; the waiter
    settles some milliseconds after it is started. *)
Record World : Type := mkWorld {
  ecs_describeClusters : list string -> Error + list Cluster;
  ecs_listServices : string -> LaunchType -> Error + list string;
  ecs_updateService : string -> string -> N -> Error + Service;
  ecs_listTasks : string -> Error + list string;
  ecs_stopTask : string -> string -> string -> Error + Task;
  ecs_listContainerInstances : string -> Error + list string;
  ecs_deregisterContainerInstance :
    string -> string -> bool -> Error + ContainerInstance;
  ecs_deleteService : string -> string -> Error + Service;
  ecs_deleteCluster : string -> Error + Cluster;
  cfn_describeStacks : string -> Error + list Stack;
  cfn_deleteStack : string -> Error + unit;
  cfn_describeStackEvents : nat -> string -> Error + list StackEvent;
  cfn_describeStackResources : string -> string -> Error + list StackResource;
  cfn_waitFor_stackDeleteComplete : string -> N * (Error + list Stack)
}.

(** ** The effect log as a writer monad *)

Definition M (A : Type) : Type := (list effect * A)%type.

Definition ret {A} (a : A) : M A := ([], a).

Definition bind {A B} (m : M A) (k : A -> M B) : M B :=
  let r := k (snd m) in (fst m ++ fst r, snd r).

Declare Scope js_scope.
Delimit Scope js_scope with js.
Notation "x <- c1 ;; c2" := (bind c1 (fun x => c2))
  (at level 61, c1 at next level, right associativity) : js_scope.
Notation "c1 ;; c2" := (bind c1 (fun _ => c2))
  (at level 61, right associativity) : js_scope.
Local Open Scope js_scope.

Definition tell (l : list effect) : M unit := (l, tt).
Definition emit (k : ClusterCleanupEvents) (p : payload) : M unit :=
  tell [Emit k p].
Definition console_log (p : payload) : M unit := tell [ConsoleLog p].

(** [remote r reply]: the call [r] is issued; [reply] is how its promise
    settles. *)
Definition remote {A} (r : request) (reply : Error + A) : M (Error + A) :=
  ([Call r], reply).

(** [await m]: run [m], then suspend until its promise has settled. *)
Definition await {A} (m : M A) : M A :=
  a <- m ;; tell [Await] ;; ret a.

(** [xs.map(f)] for an [f] with effects. *)
Fixpoint mapM {A B} (f : A -> M B) (xs : list A) : M (list B) :=
  match xs with
  | [] => ret []
  | x :: xs' => b <- f x ;; bs <- mapM f xs' ;; ret (b :: bs)
  end.

(** [Promise.all]: the values in the order of the promises, or a rejection.
    When several promises reject, JavaScript keeps the reason of the one that
    settles first; the replies carry no time, and the first in the list is
    taken.  With at most one rejection the two agree. *)
Fixpoint Promise_all {A} (rs : list (Error + A)) : Error + list A :=
  match rs with
  | [] => inr []
  | inl e :: _ => inl e
  | inr a :: rs' =>
      match Promise_all rs' with
      | inl e => inl e
      | inr l => inr (a :: l)
      end
  end.

(** [await Promise.all(xs.map(x => op(x).promise()))]: every call is issued
    before the first one is waited for. *)
Definition fan_out {A R} (req : A -> request) (reply : A -> Error + R)
  (xs : list A) : M (Error + list R) :=
  rs <- mapM (fun x => remote (req x) (reply x)) xs ;;
  tell [Await] ;;
  ret (Promise_all rs).

(** Projections of a log. *)
Definition events (l : list effect) : list (ClusterCleanupEvents * payload) :=
  flat_map (fun x => match x with Emit k p => [(k, p)] | _ => [] end) l.

Definition kinds (l : list effect) : list ClusterCleanupEvents :=
  map fst (events l).

Definition calls (l : list effect) : list request :=
  flat_map (fun x => match x with Call r => [r] | _ => [] end) l.

(** What an [async] function has done when control is back at its caller:
    everything up to its first suspension point. *)
Fixpoint before_first_await (l : list effect) : list effect :=
  match l with
  | [] => []
  | Await :: _ => []
  | x :: l' => x :: before_first_await l'
  end.

(** The fixed name of the stack that belongs to a cluster. *)
Definition stack_name (cluster : string) : string :=
  ("EC2ContainerService-" ++ cluster)%string.

Definition TEN_SECONDS : N := 10 * 1000.
Definition TEN_MINUTES : N := 10 * 60 * 1000.

(** The number of periodic checks that have fired strictly before [t]
    milliseconds: check number [k] (from 1) fires at [k * TEN_SECONDS]. *)
Definition ticks_before (t : N) : nat := N.to_nat ((t - 1) / TEN_SECONDS).

Record Options : Type := mkOptions { verbose : option bool }.

(** The [options] argument as a caller can pass it: left out, [null], or an
    object. *)
Inductive OptionsArgument : Type :=
| Undefined
| Null
| Object (o : Options).

(** The promise of the bounded wait for the deletion of the stack. *)
Record RacePromise : Type := mkRacePromise {
  while_pending : list effect;
  settled : Error + list Stack;
  afterwards : list effect
}.

(** The configuration object; the connection parameters are opaque. *)
Record Config : Type := mkConfig { enableFargate : option bool; region : string }.

(** What an entry point hands to its direct caller. *)
Inductive value : Type :=
| ThisEvents
| NewEventEmitter
| PromiseFulfilledWith (v : value)
| PromiseRejectedWith (e : Error).

Inductive completion : Type :=
| Normal (v : value)
| Throw (e : Error).

(** What the direct caller of an entry point observes when control is back:
    the completion of the call and what has been done by then. *)
Record Observation : Type := mkObservation {
  completed : completion;
  done_before_return : list effect
}.

(** A call of an [async] function from synchronous code: the body runs up to
    its first suspension point and the caller gets a promise. *)
Definition call_async (body : M value) : Observation :=
  mkObservation (Normal (PromiseFulfilledWith (snd body)))
                (before_first_await (fst body)).

Definition truthy (b : option bool) : bool :=
  match b with Some true => true | _ => false end.

(** ** [ClusterCleanup]: the orchestrator *)

Module ClusterCleanup.

(** The fields of an instance while it is being constructed: [None] is a
    field that has not been assigned yet.  A client is built from whatever it
    is given, the configuration or [undefined]. *)
Record Instance : Type := mkInstance {
  ecs : option (option Config);
  cloudFormation : option (option Config);
  launchTypes : option (list LaunchType);
  events_field : option unit
}.

Definition blank : Instance := mkInstance None None None None.

(** The constructor: the instance as the assignments left it, and the
    exception if one is thrown.  Reading [config.enableFargate] of an absent
    [config] is a [TypeError]. *)
Definition constructor (config : option Config) : Instance * option Error :=
  let this := blank in
  let this := mkInstance (Some config) (cloudFormation this)
                (launchTypes this) (events_field this) in
  let this := mkInstance (ecs this) (Some config)
                (launchTypes this) (events_field this) in
  let this := mkInstance (ecs this) (cloudFormation this)
                (Some [EC2]) (events_field this) in
  let this := mkInstance (ecs this) (cloudFormation this)
                (launchTypes this) (Some tt) in
  match config with
  | None =>
      (this, Some (TypeError "Cannot read property 'enableFargate' of undefined"))
  | Some c =>
      if truthy (enableFargate c)
      then (mkInstance (ecs this) (cloudFormation this)
              (option_map (fun l => l ++ [FARGATE]) (launchTypes this))
              (events_field this), None)
      else (this, None)
  end.

Section Methods.

Variable w : World.
(** [this.launchTypes] of the constructed instance. *)
Variable this_launchTypes : list LaunchType.

Definition describeCluster (cluster : string) : M (list Cluster) :=
  response <- await (remote (DescribeClusters [cluster])
                            (ecs_describeClusters w [cluster])) ;;
  match response with
  | inr clusters => ret clusters
  | inl e => emit error (PError e) ;; ret []
  end.

Definition doesClusterExist (cluster : string) : M bool :=
  clusters <- await (describeCluster cluster) ;;
  ret (negb (List.length
               (filter (fun c => clusterName c =? cluster)%string
                  (filter (fun c => negb (status c =? "INACTIVE")%string)
                     clusters)) =? 0)).

Definition describeStack (cluster : string) : M (option Stack) :=
  response <- await (remote (DescribeStacks (stack_name cluster))
                            (cfn_describeStacks w (stack_name cluster))) ;;
  match response with
  | inr Stacks => ret (nth_error Stacks 0)
  | inl e => emit error (PError e) ;; ret None
  end.

Definition getAllServicesFor (cluster : string) : M (list string) :=
  listServiceResponses <-
    fan_out (fun l => ListServices cluster l)
            (fun l => ecs_listServices w cluster l) this_launchTypes ;;
  match listServiceResponses with
  | inr rs => ret (fold_left (fun acc r => acc ++ r) rs [])
  | inl e => emit error (PError e) ;; ret []
  end.

Definition scaleServicesToZero (cluster : string) (serviceArns : list string)
  : M (list Service) :=
  scaleServiceResponses <-
    fan_out (fun s => UpdateService cluster s 0)
            (fun s => ecs_updateService w cluster s 0) serviceArns ;;
  match scaleServiceResponses with
  | inr rs => ret (fold_left (fun acc r => acc ++ [r]) rs [])
  | inl e => emit error (PError e) ;; ret []
  end.

Definition getAllTasksFor (cluster : string) : M (list string) :=
  listTasksResponse <- await (remote (ListTasks cluster)
                                     (ecs_listTasks w cluster)) ;;
  match listTasksResponse with
  | inr taskArns => ret taskArns
  | inl e => emit error (PError e) ;; ret []
  end.

Definition stopTasks (cluster : string) (taskArns : list string)
  : M (list Task) :=
  let reason := "Cluster being deleted" in
  stopTaskResponses <-
    fan_out (fun task => StopTask task cluster reason)
            (fun task => ecs_stopTask w task cluster reason) taskArns ;;
  match stopTaskResponses with
  | inr rs => ret (map (fun r => r) rs)
  | inl e => emit error (PError e) ;; ret []
  end.

Definition getAllInstancesFor (cluster : string) : M (list string) :=
  listInstanceResponse <- await (remote (ListContainerInstances cluster)
                                        (ecs_listContainerInstances w cluster)) ;;
  match listInstanceResponse with
  | inr containerInstanceArns => ret containerInstanceArns
  | inl e => emit error (PError e) ;; ret []
  end.

Definition deregisterContainerInstances (cluster : string)
  (instances : list string) : M (list ContainerInstance) :=
  deregisterResponses <-
    fan_out (fun i => DeregisterContainerInstance cluster i true)
            (fun i => ecs_deregisterContainerInstance w cluster i true)
            instances ;;
  match deregisterResponses with
  | inr rs => ret (fold_left (fun acc r => acc ++ [r]) rs [])
  | inl e => emit error (PError e) ;; ret []
  end.

Definition deleteAllServices (cluster : string) (services : list string)
  : M (list Service) :=
  deleteServicesResponses <-
    fan_out (fun service => DeleteService cluster service)
            (fun service => ecs_deleteService w cluster service) services ;;
  match deleteServicesResponses with
  | inr rs => ret (fold_left (fun acc r => acc ++ [r]) rs [])
  | inl e => emit error (PError e) ;; ret []
  end.

Definition describeStackResources (stackId resourceId : string)
  : M (list StackResource) :=
  describeResourceResponse <-
    await (remote (DescribeStackResources stackId resourceId)
                  (cfn_describeStackResources w stackId resourceId)) ;;
  match describeResourceResponse with
  | inr StackResources => ret StackResources
  | inl e => emit error (PError e) ;; ret []
  end.

(** The value is the response or the caught error; the caller drops it. *)
Definition deleteStack (cluster : string) : M (Error + unit) :=
  deleteStackResponse <- await (remote (DeleteStack (stack_name cluster))
                                       (cfn_deleteStack w (stack_name cluster))) ;;
  match deleteStackResponse with
  | inr r => ret (inr r)
  | inl e => emit error (PError e) ;; ret (inl e)
  end.

(** The reply to periodic check number [k]. *)
Definition describeStackEvents (k : nat) (cluster : string)
  : M (list StackEvent) :=
  response <- await (remote (DescribeStackEvents (stack_name cluster))
                            (cfn_describeStackEvents w k (stack_name cluster))) ;;
  match response with
  | inr StackEvents => ret StackEvents
  | inl e => emit error (PError e) ;; ret []
  end.

(** [alreadyDeleted.includes(id)] *)
Definition includes (l : list string) (x : string) : bool :=
  existsb (fun y => (y =? x)%string) l.

(** [forEach] over the events that passed both filters: the identifier is
    pushed, the event is emitted. *)
Fixpoint forEach_report (es : list StackEvent) (alreadyDeleted : list string)
  : M (list string) :=
  match es with
  | [] => ret alreadyDeleted
  | e :: es' =>
      emit resourceDeleted (PStackEvent e) ;;
      forEach_report es' (alreadyDeleted ++ [LogicalResourceId e])
  end.

(** One periodic check.  Both filters run over the whole reply before the
    first [push]. *)
Definition pollEvent (k : nat) (cluster : string) (alreadyDeleted : list string)
  : M (list string) :=
  stackEvents <- await (describeStackEvents k cluster) ;;
  forEach_report
    (filter (fun e => negb (includes alreadyDeleted (LogicalResourceId e)))
       (filter (fun e => (ResourceStatus e =? "DELETE_COMPLETE")%string)
          stackEvents))
    alreadyDeleted.

(** [setupCloudFormationPolling]: the interval, as the [n] checks from number
    [k] on, over the array [alreadyDeleted] the checks share. *)
Fixpoint setupCloudFormationPolling (cluster : string) (n k : nat)
  (alreadyDeleted : list string) : M (list string) :=
  match n with
  | O => ret alreadyDeleted
  | S n' =>
      alreadyDeleted' <- pollEvent k cluster alreadyDeleted ;;
      setupCloudFormationPolling cluster n' (S k) alreadyDeleted'
  end.

(** The race of the waiter against the timer.  The waiter is started at
    once; the value describes the promise of the race: what the interval does
    while the race is pending, how the race settles, and what the interval
    still does afterwards.  The handler of a fulfilled wait clears both
    timers and the timer clears the interval; a rejected wait clears neither,
    so the interval goes on until the timer fires.  A check or a settlement
    at the very millisecond of the timer counts as later than it.  The
    reply to a check is taken to arrive at once, so every check is over at
    its tick: clearing the interval stops the later ticks only, and a check
    that is still waiting for its reply when the race settles, whose events
    would come after the settlement, is outside this model. *)
Definition pollCloudFormationForChanges (cluster : string) (stack : Stack)
  : M RacePromise :=
  remote (A := list Stack) (WaitForStackDeleteComplete (StackId stack))
         (snd (cfn_waitFor_stackDeleteComplete w (StackId stack))) ;;
  let t := fst (cfn_waitFor_stackDeleteComplete w (StackId stack)) in
  if (t <? TEN_MINUTES)%N then
    let pending := setupCloudFormationPolling cluster (ticks_before t) 1 [] in
    match snd (cfn_waitFor_stackDeleteComplete w (StackId stack)) with
    | inr Stacks => ret (mkRacePromise (fst pending) (inr Stacks) [])
    | inl e =>
        ret (mkRacePromise (fst pending) (inl e)
               (fst (setupCloudFormationPolling cluster
                       (ticks_before TEN_MINUTES - ticks_before t)
                       (S (ticks_before t)) (snd pending))))
    end
  else
    ret (mkRacePromise
           (fst (setupCloudFormationPolling cluster
                   (ticks_before TEN_MINUTES) 1 []))
           (inl (new_Error "CloudFormation stack deletion timed out!")) []).

(** [await] of the race: suspended while the interval runs, resumed with the
    settlement. *)
Definition await_race (p : RacePromise) : M (Error + list Stack) :=
  tell [Await] ;; tell (while_pending p) ;; ret (settled p).

(** The value is [response.cluster], or [undefined] after a failure. *)
Definition deleteCluster (cluster : string) : M (option Cluster) :=
  response <- await (remote (DeleteCluster cluster)
                            (ecs_deleteCluster w cluster)) ;;
  match response with
  | inr c => ret (Some c)
  | inl e => emit doneWithError (PError e) ;; ret None
  end.

Definition cluster_payload (c : option Cluster) : payload :=
  match c with Some c => PCluster c | None => PUndefined end.

(** The pipeline.  [services] stands for the variable of that name: it is
    read only under the guard under which it was assigned.  What the interval
    still does once the helper has returned comes last in the log. *)
Definition deleteHelper (cluster : string) (options : Options) : M unit :=
  emit start (PString cluster) ;;
  exists_ <- await (doesClusterExist cluster) ;;
  if negb exists_ then
    emit doneWithError
      (PError (new_Error ("Cluster " ++ cluster
                          ++ " does not exist in the region specified")%string))
  else
    stack <- await (describeStack cluster) ;;
    match stack with
    | Some s => emit stackFound (PStack s)
    | None => ret tt
    end ;;
    foundServices <- await (getAllServicesFor cluster) ;;
    services <-
      (if 0 <? List.length foundServices then
         emit servicesFound (PArns foundServices) ;;
         services <- await (scaleServicesToZero cluster foundServices) ;;
         emit servicesScaledDown (PServices services) ;;
         ret services
       else ret []) ;;
    foundTasks <- await (getAllTasksFor cluster) ;;
    (if 0 <? List.length foundTasks then
       emit tasksFound (PArns foundTasks) ;;
       tasks <- await (stopTasks cluster foundTasks) ;;
       emit tasksStopped (PTasks tasks)
     else ret tt) ;;
    foundInstances <- await (getAllInstancesFor cluster) ;;
    (if 0 <? List.length foundInstances then
       emit instancesFound (PArns foundInstances) ;;
       instances <- await (deregisterContainerInstances cluster foundInstances) ;;
       emit instancesDeregistered (PInstances instances)
     else ret tt) ;;
    (if 0 <? List.length foundServices then
       await (deleteAllServices cluster (map serviceName services)) ;;
       emit servicesDeleted (PServices services)
     else ret tt) ;;
    match stack with
    | Some s =>
        await (deleteStack cluster) ;;
        emit stackDeletionStarted (PString (StackId s)) ;;
        race <- pollCloudFormationForChanges cluster s ;;
        settlement <- await_race race ;;
        match settlement with
        | inr _ =>
            emit stackDeletionDone (PString (StackId s)) ;;
            deletedCluster <- await (deleteCluster cluster) ;;
            emit clusterDeleted (cluster_payload deletedCluster) ;;
            emit done (PString cluster) ;;
            (if truthy (verbose options) then console_log (PElapsed cluster)
             else ret tt)
        | inl e => emit doneWithError (PError e)
        end ;;
        tell (afterwards race)
    | None =>
        deletedCluster <- await (deleteCluster cluster) ;;
        emit clusterDeleted (cluster_payload deletedCluster) ;;
        emit done (PString cluster) ;;
        (if truthy (verbose options) then console_log (PElapsed cluster)
         else ret tt)
    end.

End Methods.

(** The event loop as far as the entry point uses it: the functions queued
    with [setImmediate], and what has happened so far. *)
Record Loop : Type := mkLoop {
  events_verbose : option bool;
  immediates : list (string * Options);
  happened : list effect
}.

(** The entry point.  The default [{}] replaces an argument that is left
    out, not [null]: reading [verbose] of [null] throws at the caller, before
    anything is queued. *)
Definition deleteClusterAndResources (cluster : string)
  (options : OptionsArgument) (loop : Loop) : completion * Loop :=
  match options with
  | Null =>
      (Throw (TypeError "Cannot read property 'verbose' of null"), loop)
  | Undefined | Object _ =>
      let options := match options with
                     | Object o => o
                     | _ => mkOptions None
                     end in
      (Normal ThisEvents,
       mkLoop (verbose options) (immediates loop ++ [(cluster, options)])
              (happened loop))
  end.

(** The call as its direct caller sees it, from an idle loop. *)
Definition entry (cluster : string) (options : OptionsArgument)
  : Observation :=
  let r := deleteClusterAndResources cluster options (mkLoop None [] []) in
  mkObservation (fst r) (happened (snd r)).

End ClusterCleanup.

(** ** [ECSClusterManager]: the manager of the package index *)

Module ECSClusterManager.

Record Instance : Type := mkInstance {
  ecs : option (option Config);
  launchTypes : option (list LaunchType)
}.

Definition blank : Instance := mkInstance None None.

(** The constructor; its parameter is declared optional. *)
Definition constructor (config : option Config) : Instance * option Error :=
  let this := blank in
  let this := mkInstance (Some config) (launchTypes this) in
  let this := mkInstance (ecs this) (Some [EC2]) in
  match config with
  | None =>
      (this, Some (TypeError "Cannot read property 'enableFargate' of undefined"))
  | Some c =>
      if truthy (enableFargate c)
      then (mkInstance (ecs this)
              (option_map (fun l => l ++ [FARGATE]) (launchTypes this)), None)
      else (this, None)
  end.

Section Methods.

Variable w : World.
Variable this_launchTypes : list LaunchType.

Definition getAllServicesFor (clusterName : string) : M (list string) :=
  listServiceResponses <-
    fan_out (fun l => ListServices clusterName l)
            (fun l => ecs_listServices w clusterName l) this_launchTypes ;;
  match listServiceResponses with
  | inr rs => ret (fold_left (fun acc r => acc ++ r) rs [])
  | inl e => console_log (PError e) ;; ret []
  end.

Definition scaleServicesToZero (clusterName : string)
  (serviceArns : list string) : M (list Service) :=
  scaleServiceResponses <-
    fan_out (fun s => UpdateService clusterName s 0)
            (fun s => ecs_updateService w clusterName s 0) serviceArns ;;
  match scaleServiceResponses with
  | inr rs => ret (fold_left (fun acc r => acc ++ [r]) rs [])
  | inl e => console_log (PError e) ;; ret []
  end.

(** The body of the [async] entry point. *)
Definition deleteClusterAndResources_body (clusterName : string) : M value :=
  foundServices <- await (getAllServicesFor clusterName) ;;
  scaled <- await (scaleServicesToZero clusterName foundServices) ;;
  console_log (PServices scaled) ;;
  ret NewEventEmitter.

Definition deleteClusterAndResources (clusterName : string) : Observation :=
  call_async (deleteClusterAndResources_body clusterName).

End Methods.

End ECSClusterManager.

(** ** Vocabulary of the statements *)

(** The mutation steps of the pipeline, to speak about all of them at once. *)
Inductive MutationStep : Type :=
| ScaleServices | StopTasks | DeregisterInstances | DeleteServices.

Definition step_request (step : MutationStep) (cluster x : string) : request :=
  match step with
  | ScaleServices => UpdateService cluster x 0
  | StopTasks => StopTask x cluster "Cluster being deleted"
  | DeregisterInstances => DeregisterContainerInstance cluster x true
  | DeleteServices => DeleteService cluster x
  end.

Definition rejection {A} (r : Error + A) : option Error :=
  match r with inl e => Some e | inr _ => None end.

(** How the call of a step for the resource [x] fails, if it does. *)
Definition step_failure (w : World) (step : MutationStep) (cluster x : string)
  : option Error :=
  match step with
  | ScaleServices => rejection (ecs_updateService w cluster x 0)
  | StopTasks => rejection (ecs_stopTask w x cluster "Cluster being deleted")
  | DeregisterInstances =>
      rejection (ecs_deregisterContainerInstance w cluster x true)
  | DeleteServices => rejection (ecs_deleteService w cluster x)
  end.

(** A step run on the resources [xs]; its value as a payload. *)
Definition run_step (w : World) (step : MutationStep) (cluster : string)
  (xs : list string) : M payload :=
  match step with
  | ScaleServices =>
      r <- ClusterCleanup.scaleServicesToZero w cluster xs ;; ret (PServices r)
  | StopTasks =>
      r <- ClusterCleanup.stopTasks w cluster xs ;; ret (PTasks r)
  | DeregisterInstances =>
      r <- ClusterCleanup.deregisterContainerInstances w cluster xs ;;
      ret (PInstances r)
  | DeleteServices =>
      r <- ClusterCleanup.deleteAllServices w cluster xs ;; ret (PServices r)
  end.

Definition empty_payload (step : MutationStep) : payload :=
  match step with
  | ScaleServices | DeleteServices => PServices []
  | StopTasks => PTasks []
  | DeregisterInstances => PInstances []
  end.

(** The results of the calls that succeeded, in the words of the
    specification. *)
Definition successes {A} (rs : list (Error + A)) : list A :=
  flat_map (fun r => match r with inr a => [a] | inl _ => [] end) rs.

Definition is_event_source (v : value) : bool :=
  match v with ThisEvents | NewEventEmitter => true | _ => false end.

(** An entry point that hands an event source to its caller before any remote
    call is issued, in the words of the specification. *)
Definition returns_event_source_first (o : Observation) : Prop :=
  (exists v, completed o = Normal v /\ is_event_source v = true)
  /\ calls (done_before_return o) = [].

Definition pair_if (n : nat) (a b : ClusterCleanupEvents)
  : list ClusterCleanupEvents :=
  if 0 <? n then [a; b] else [].

(** The sequence of a full run as the specification words it: a discovery
    and mutation pair is left out for an empty kind, nothing else is. *)
Definition claimed_sequence (n m k r : nat) : list ClusterCleanupEvents :=
  [start; stackFound]
  ++ pair_if n servicesFound servicesScaledDown
  ++ pair_if m tasksFound tasksStopped
  ++ pair_if k instancesFound instancesDeregistered
  ++ [servicesDeleted; stackDeletionStarted]
  ++ repeat resourceDeleted r
  ++ [stackDeletionDone; clusterDeleted; done].

(** The sequence of a full run as the pipeline produces it. *)
Definition emitted_sequence (n m k r : nat) : list ClusterCleanupEvents :=
  [start; stackFound]
  ++ pair_if n servicesFound servicesScaledDown
  ++ pair_if m tasksFound tasksStopped
  ++ pair_if k instancesFound instancesDeregistered
  ++ (if 0 <? n then [servicesDeleted] else [])
  ++ [stackDeletionStarted]
  ++ repeat resourceDeleted r
  ++ [stackDeletionDone; clusterDeleted; done].

Definition LaunchType_eqb (a b : LaunchType) : bool :=
  match a, b with EC2, EC2 | FARGATE, FARGATE => true | _, _ => false end.

(** Every scope of [scopes] is named by one of the requests. *)
Definition queries_each_scope (scopes : list LaunchType) (rs : list request)
  : bool :=
  forallb (fun l =>
             existsb (fun r => match request_scope r with
                               | Some l' => LaunchType_eqb l l'
                               | None => false
                               end) rs) scopes.

(** The logical identifiers reported by [resourceDeleted] events. *)
Definition reported_ids (l : list effect) : list string :=
  flat_map (fun x => match x with
                     | Emit resourceDeleted (PStackEvent e) =>
                         [LogicalResourceId e]
                     | _ => []
                     end) l.

(** The event kinds after the first terminal failure event. *)
Fixpoint after_doneWithError (ks : list ClusterCleanupEvents)
  : list ClusterCleanupEvents :=
  match ks with
  | [] => []
  | doneWithError :: rest => rest
  | _ :: rest => after_doneWithError rest
  end.

(** A remote side for the cluster [demo]: the EC2 scope lists [services],
    scaling the service [failing], if one is named, is refused, the stack and its deletion are
    as given, the history of check [k] is [history k], and the deletion of
    the cluster settles as [deletion]. *)
Definition demo_world (services : list string) (failing : option string)
  (stacks : Error + list Stack) (wait : N * (Error + list Stack))
  (history : nat -> Error + list StackEvent) (deletion : Error + Cluster)
  : World :=
  mkWorld
    (fun _ => inr [mkCluster "demo" "ACTIVE"])
    (fun _ l => match l with EC2 => inr services | FARGATE => inr [] end)
    (fun _ s _ => match failing with
                  | Some f => if (s =? f)%string
                              then inl (new_Error "ThrottlingException")
                              else inr (mkService s s)
                  | None => inr (mkService s s)
                  end)
    (fun _ => inr [])
    (fun t _ _ => inr (mkTask t))
    (fun _ => inr [])
    (fun _ i _ => inr (mkContainerInstance i))
    (fun _ s => inr (mkService s s))
    (fun _ => deletion)
    (fun _ => stacks)
    (fun _ => inr tt)
    (fun k _ => history k)
    (fun _ _ => inr [])
    (fun _ => wait).

Definition demo_stack : Stack :=
  mkStack "arn:aws:cloudformation:stack/EC2ContainerService-demo/1"
          "EC2ContainerService-demo".

Definition no_stack : Error + list Stack :=
  inl (new_Error "Stack with id EC2ContainerService-demo does not exist").

Definition deleted (id : string) : StackEvent :=
  mkStackEvent id id "DELETE_COMPLETE".

(** The non-terminal error event of a rejected call, and the value that
    stands for its result. *)
Definition error_if {A} (r : Error + A) : list effect :=
  match r with inl e => [Emit error (PError e)] | inr _ => [] end.

Definition value_or {A} (r : Error + list A) : list A :=
  match r with inr v => v | inl _ => [] end.

(** The guarded blocks of the pipeline, by name. *)
Section Blocks.

Variable w : World.
Variable this_launchTypes : list LaunchType.

Definition services_block (cluster : string) (foundServices : list string)
  : M (list Service) :=
  if 0 <? List.length foundServices then
    emit servicesFound (PArns foundServices) ;;
    services <- await (ClusterCleanup.scaleServicesToZero w cluster
                         foundServices) ;;
    emit servicesScaledDown (PServices services) ;;
    ret services
  else ret [].

Definition tasks_block (cluster : string) (foundTasks : list string) : M unit :=
  if 0 <? List.length foundTasks then
    emit tasksFound (PArns foundTasks) ;;
    tasks <- await (ClusterCleanup.stopTasks w cluster foundTasks) ;;
    emit tasksStopped (PTasks tasks)
  else ret tt.

Definition instances_block (cluster : string) (foundInstances : list string)
  : M unit :=
  if 0 <? List.length foundInstances then
    emit instancesFound (PArns foundInstances) ;;
    instances <- await (ClusterCleanup.deregisterContainerInstances w cluster
                          foundInstances) ;;
    emit instancesDeregistered (PInstances instances)
  else ret tt.

Definition delete_block (cluster : string) (foundServices : list string)
  (services : list Service) : M unit :=
  if 0 <? List.length foundServices then
    await (ClusterCleanup.deleteAllServices w cluster
             (map serviceName services)) ;;
    emit servicesDeleted (PServices services)
  else ret tt.

Definition finish (cluster : string) (options : Options) : M unit :=
  deletedCluster <- await (ClusterCleanup.deleteCluster w cluster) ;;
  emit clusterDeleted (ClusterCleanup.cluster_payload deletedCluster) ;;
  emit done (PString cluster) ;;
  (if truthy (verbose options) then console_log (PElapsed cluster)
   else ret tt).

Definition stack_block (cluster : string) (options : Options)
  (stack : option Stack) : M unit :=
  match stack with
  | Some s =>
      await (ClusterCleanup.deleteStack w cluster) ;;
      emit stackDeletionStarted (PString (StackId s)) ;;
      race <- ClusterCleanup.pollCloudFormationForChanges w cluster s ;;
      settlement <- ClusterCleanup.await_race race ;;
      match settlement with
      | inr _ =>
          emit stackDeletionDone (PString (StackId s)) ;;
          finish cluster options
      | inl e => emit doneWithError (PError e)
      end ;;
      tell (afterwards race)
  | None => finish cluster options
  end.

(** The pipeline once the cluster is known to exist. *)
Definition teardown (cluster : string) (options : Options) : M unit :=
  stack <- await (ClusterCleanup.describeStack w cluster) ;;
  match stack with
  | Some s => emit stackFound (PStack s)
  | None => ret tt
  end ;;
  foundServices <- await (ClusterCleanup.getAllServicesFor w this_launchTypes
                            cluster) ;;
  services <- services_block cluster foundServices ;;
  foundTasks <- await (ClusterCleanup.getAllTasksFor w cluster) ;;
  tasks_block cluster foundTasks ;;
  foundInstances <- await (ClusterCleanup.getAllInstancesFor w cluster) ;;
  instances_block cluster foundInstances ;;
  delete_block cluster foundServices services ;;
  stack_block cluster options stack.

End Blocks.

(** The resources a step of the pipeline is run on. *)
Definition discovered (w : World) (lts : list LaunchType)
  (step : MutationStep) (cluster : string) : list string :=
  match step with
  | ScaleServices => snd (ClusterCleanup.getAllServicesFor w lts cluster)
  | StopTasks => snd (ClusterCleanup.getAllTasksFor w cluster)
  | DeregisterInstances => snd (ClusterCleanup.getAllInstancesFor w cluster)
  | DeleteServices =>
      map serviceName
        (snd (services_block w cluster
                (snd (ClusterCleanup.getAllServicesFor w lts cluster))))
  end.



(** The calls of a log that change the remote side. *)
Definition mutations (l : list effect) : list request :=
  filter is_mutation (calls l).

(** The stack events reported by [resourceDeleted] events. *)
Definition reported_events (l : list effect) : list StackEvent :=
  flat_map (fun x => match x with
                     | Emit resourceDeleted (PStackEvent e) => [e]
                     | _ => []
                     end) l.

(** The logical identifiers a reply shows as deleted. *)
Definition complete_ids (r : Error + list StackEvent) : list string :=
  map LogicalResourceId
    (filter (fun e => (ResourceStatus e =? "DELETE_COMPLETE")%string)
       (value_or r)).

(** The lines written to the console. *)
Definition console_lines (l : list effect) : list payload :=
  flat_map (fun x => match x with ConsoleLog p => [p] | _ => [] end) l.

(** How often events of the kind [k] occur. *)
Definition occ (k : ClusterCleanupEvents)
  (evs : list (ClusterCleanupEvents * payload)) : nat :=
  List.length (filter (fun ev => kind_eqb k (fst ev)) evs).

Definition occurrences (k : ClusterCleanupEvents) (l : list effect) : nat :=
  occ k (events l).

(** The wait for the deletion of the stack [s] is fulfilled before the timer
    fires. *)
Definition wait_fulfilled_in_time (w : World) (s : Stack) : bool :=
  (fst (cfn_waitFor_stackDeleteComplete w (StackId s)) <? TEN_MINUTES)%N
  && match snd (cfn_waitFor_stackDeleteComplete w (StackId s)) with
     | inr _ => true
     | inl _ => false
     end.

(** The run gets as far as the deletion of the cluster: the cluster exists
    and the stack, if one is found, goes in time. *)
Definition reaches_cluster_deletion (w : World) (cluster : string) : bool :=
  snd (ClusterCleanup.doesClusterExist w cluster)
  && match snd (ClusterCleanup.describeStack w cluster) with
     | Some s => wait_fulfilled_in_time w s
     | None => true
     end.

(** The kinds that only the frame of the pipeline emits: no discovery, no
    mutation step and no periodic check does. *)
Definition frame_kind (k : ClusterCleanupEvents) : bool :=
  match k with
  | start | stackDeletionStarted | stackDeletionDone | clusterDeleted
  | done | doneWithError => true
  | _ => false
  end.

(** The results of the calls of a step that succeeded, as a payload. *)
Definition step_successes (w : World) (step : MutationStep) (cluster : string)
  (xs : list string) : payload :=
  match step with
  | ScaleServices =>
      PServices (successes (map (fun s => ecs_updateService w cluster s 0) xs))
  | StopTasks =>
      PTasks (successes (map (fun t => ecs_stopTask w t cluster
                                         "Cluster being deleted") xs))
  | DeregisterInstances =>
      PInstances (successes
                    (map (fun i => ecs_deregisterContainerInstance w cluster
                                     i true) xs))
  | DeleteServices =>
      PServices (successes (map (ecs_deleteService w cluster) xs))
  end.

Definition payload_size (p : payload) : nat :=
  match p with
  | PArns l => List.length l
  | PServices l => List.length l
  | PTasks l => List.length l
  | PInstances l => List.length l
  | _ => 0
  end.

(** The sequence of a run on a cluster without a stack, when every
    discovery but possibly the one of the stack and every mutation
    succeeds: [stack_error] tells whether the description of the stack was
    rejected. *)
Definition no_stack_sequence (stack_error : bool) (n m k : nat)
  : list ClusterCleanupEvents :=
  [start]
  ++ (if stack_error then [error] else [])
  ++ pair_if n servicesFound servicesScaledDown
  ++ pair_if m tasksFound tasksStopped
  ++ pair_if k instancesFound instancesDeregistered
  ++ (if 0 <? n then [servicesDeleted] else [])
  ++ [clusterDeleted; done].

(** The console line of a rejected call of the early manager. *)
Definition console_if {A} (r : Error + A) : list effect :=
  match r with inl e => [ConsoleLog (PError e)] | inr _ => [] end.

(** The request stays within the run for [cluster]: it names that cluster,
    or its stack by the conventional name, or, for the wait, the stack
    that was described by its identifier; the resources of a stack are
    never asked for. *)
Definition within (cluster : string) (stack : option Stack) (r : request)
  : Prop :=
  match r with
  | DescribeClusters cs => cs = [cluster]
  | ListServices c _ | UpdateService c _ _ | ListTasks c | StopTask _ c _
  | ListContainerInstances c | DeregisterContainerInstance c _ _
  | DeleteService c _ | DeleteCluster c => c = cluster
  | DescribeStacks n | DeleteStack n | DescribeStackEvents n =>
      n = stack_name cluster
  | WaitForStackDeleteComplete n =>
      exists s, stack = Some s /\ n = StackId s
  | DescribeStackResources _ _ => False
  end.

(** An [options] argument that is not [null]: left out, or an object. *)
Definition provided (o : option Options) : OptionsArgument :=
  match o with Some o => Object o | None => Undefined end.

Definition not_found (cluster : string) : Error :=
  new_Error ("Cluster " ++ cluster
             ++ " does not exist in the region specified")%string.

(** ** Laws of the log *)

Lemma events_app (l1 l2 : list effect) :
  events (l1 ++ l2) = events l1 ++ events l2.
Proof. apply flat_map_app. Qed.

Lemma kinds_app (l1 l2 : list effect) :
  kinds (l1 ++ l2) = kinds l1 ++ kinds l2.
Proof. unfold kinds. now rewrite events_app, map_app. Qed.

Lemma calls_app (l1 l2 : list effect) :
  calls (l1 ++ l2) = calls l1 ++ calls l2.
Proof. apply flat_map_app. Qed.

Lemma reported_ids_app (l1 l2 : list effect) :
  reported_ids (l1 ++ l2) = reported_ids l1 ++ reported_ids l2.
Proof. apply flat_map_app. Qed.

Lemma mapM_remote_log {A R} (req : A -> request) (reply : A -> Error + R)
  (xs : list A) :
  fst (mapM (fun x => remote (req x) (reply x)) xs)
  = map (fun x => Call (req x)) xs.
Proof.
  induction xs as [|x xs IH]; simpl; [reflexivity|].
  rewrite app_nil_r. now rewrite IH.
Qed.

Lemma mapM_remote_value {A R} (req : A -> request) (reply : A -> Error + R)
  (xs : list A) :
  snd (mapM (fun x => remote (req x) (reply x)) xs) = map reply xs.
Proof.
  induction xs as [|x xs IH]; simpl; [reflexivity|]. now rewrite IH.
Qed.

Lemma fan_out_log {A R} (req : A -> request) (reply : A -> Error + R)
  (xs : list A) :
  fst (fan_out req reply xs) = map (fun x => Call (req x)) xs ++ [Await].
Proof. unfold fan_out. simpl. now rewrite mapM_remote_log. Qed.

Lemma fan_out_value {A R} (req : A -> request) (reply : A -> Error + R)
  (xs : list A) :
  snd (fan_out req reply xs) = Promise_all (map reply xs).
Proof. unfold fan_out. simpl. now rewrite mapM_remote_value. Qed.

Lemma calls_map_Call {A} (req : A -> request) (xs : list A) :
  calls (map (fun x => Call (req x)) xs) = map req xs.
Proof. induction xs as [|x xs IH]; simpl; [reflexivity|]. now rewrite IH. Qed.

Lemma events_map_Call {A} (req : A -> request) (xs : list A) :
  events (map (fun x => Call (req x)) xs) = [].
Proof. induction xs as [|x xs IH]; simpl; auto. Qed.

Lemma Promise_all_inr {A} (vs : list A) :
  Promise_all (map inr vs) = inr vs.
Proof. induction vs as [|v vs IH]; simpl; [reflexivity|]. now rewrite IH. Qed.

Lemma Promise_all_successes {A} (rs : list (Error + A)) :
  (forall r, In r rs -> rejection r = None) ->
  Promise_all rs = inr (successes rs).
Proof.
  induction rs as [|[e|a] rs IH]; intros H; simpl.
  - reflexivity.
  - specialize (H (inl e) (or_introl eq_refl)). discriminate.
  - rewrite IH; [reflexivity|]. intros r Hr. apply H. now right.
Qed.

Lemma Promise_all_rejects {A} (rs : list (Error + A)) :
  (exists r, In r rs /\ rejection r <> None) ->
  exists e, Promise_all rs = inl e /\ In (inl e) rs.
Proof.
  induction rs as [|[e|a] rs IH]; intros [r [Hin Hr]].
  - destruct Hin.
  - exists e. simpl. auto.
  - destruct Hin as [<-|Hin]; [now elim Hr|].
    destruct IH as [e [He Hine]]; [now exists r|].
    exists e. simpl. rewrite He. auto.
Qed.


Lemma reduce_concat_one {A} (rs acc : list A) :
  fold_left (fun acc r => acc ++ [r]) rs acc = acc ++ rs.
Proof.
  revert acc. induction rs as [|r rs IH]; intros acc; simpl.
  - now rewrite app_nil_r.
  - rewrite IH, <- app_assoc. reflexivity.
Qed.

Lemma reduce_concat {A} (rs : list (list A)) (acc : list A) :
  fold_left (fun acc r => acc ++ r) rs acc = acc ++ List.concat rs.
Proof.
  revert acc. induction rs as [|r rs IH]; intros acc; simpl.
  - now rewrite app_nil_r.
  - rewrite IH, <- app_assoc. reflexivity.
Qed.

Lemma kinds_nil : kinds [] = [].
Proof. reflexivity. Qed.

Lemma kinds_Emit (k : ClusterCleanupEvents) (p : payload) (l : list effect) :
  kinds (Emit k p :: l) = k :: kinds l.
Proof. reflexivity. Qed.

Lemma kinds_Call (r : request) (l : list effect) :
  kinds (Call r :: l) = kinds l.
Proof. reflexivity. Qed.

Lemma kinds_Await (l : list effect) : kinds (Await :: l) = kinds l.
Proof. reflexivity. Qed.

Lemma kinds_ConsoleLog (p : payload) (l : list effect) :
  kinds (ConsoleLog p :: l) = kinds l.
Proof. reflexivity. Qed.

Lemma kinds_map_Call {A} (req : A -> request) (xs : list A) :
  kinds (map (fun x => Call (req x)) xs) = [].
Proof. unfold kinds. now rewrite events_map_Call. Qed.

Lemma calls_nil : calls [] = [].
Proof. reflexivity. Qed.

Lemma calls_Emit (k : ClusterCleanupEvents) (p : payload) (l : list effect) :
  calls (Emit k p :: l) = calls l.
Proof. reflexivity. Qed.

Lemma calls_Call (r : request) (l : list effect) :
  calls (Call r :: l) = r :: calls l.
Proof. reflexivity. Qed.

Lemma calls_Await (l : list effect) : calls (Await :: l) = calls l.
Proof. reflexivity. Qed.

Lemma calls_ConsoleLog (p : payload) (l : list effect) :
  calls (ConsoleLog p :: l) = calls l.
Proof. reflexivity. Qed.

Lemma kinds_error_if {A} (r : Error + A) :
  kinds (error_if r) = match r with inl _ => [error] | inr _ => [] end.
Proof. now destruct r. Qed.

Lemma calls_error_if {A} (r : Error + A) : calls (error_if r) = [].
Proof. now destruct r. Qed.

Lemma events_nil : events [] = [].
Proof. reflexivity. Qed.

Lemma events_Emit (k : ClusterCleanupEvents) (p : payload) (l : list effect) :
  events (Emit k p :: l) = (k, p) :: events l.
Proof. reflexivity. Qed.

Lemma events_Call (r : request) (l : list effect) :
  events (Call r :: l) = events l.
Proof. reflexivity. Qed.

Lemma events_Await (l : list effect) : events (Await :: l) = events l.
Proof. reflexivity. Qed.

Lemma events_ConsoleLog (p : payload) (l : list effect) :
  events (ConsoleLog p :: l) = events l.
Proof. reflexivity. Qed.

Lemma events_error_if {A} (r : Error + A) :
  events (error_if r)
  = match r with inl e => [(error, PError e)] | inr _ => [] end.
Proof. now destruct r. Qed.

Create Rewrite HintDb log.
#[local] Hint Rewrite events_app events_nil events_Emit events_Call
  events_Await events_ConsoleLog @events_map_Call : log.
#[local] Hint Rewrite kinds_app kinds_nil kinds_Emit kinds_Call kinds_Await
  kinds_ConsoleLog @kinds_map_Call @kinds_error_if : log.
#[local] Hint Rewrite calls_app calls_nil calls_Emit calls_Call calls_Await
  calls_ConsoleLog @calls_map_Call @calls_error_if : log.

Ltac log_simpl :=
  rewrite <- ?app_assoc; cbn [app];
  autorewrite with log; cbn [app]; rewrite ?app_nil_r.

Lemma before_first_await_calls {A} (req : A -> request) (xs : list A)
  (rest : list effect) :
  before_first_await (map (fun x => Call (req x)) xs ++ Await :: rest)
  = map (fun x => Call (req x)) xs.
Proof. induction xs as [|x xs IH]; simpl; [reflexivity|]. now rewrite IH. Qed.

(** ** The naming convention of the stack *)

(** C9: for every cluster name [X], describing the stack, deleting it and
    reading its event history each issue exactly one call, and that call
    addresses the stack named [EC2ContainerService-X], the fixed prefix
    followed by the cluster name unchanged. *)
Theorem stack_operations_use_the_conventional_name :
  forall (w : World) (X : string) (k : nat),
    stack_name X = String.append "EC2ContainerService-" X
    /\ calls (fst (ClusterCleanup.describeStack w X))
       = [DescribeStacks (String.append "EC2ContainerService-" X)]
    /\ calls (fst (ClusterCleanup.deleteStack w X))
       = [DeleteStack (String.append "EC2ContainerService-" X)]
    /\ calls (fst (ClusterCleanup.describeStackEvents w k X))
       = [DescribeStackEvents (String.append "EC2ContainerService-" X)].
Proof.
  intros w X k. unfold ClusterCleanup.describeStack,
    ClusterCleanup.deleteStack, ClusterCleanup.describeStackEvents, stack_name.
  repeat split.
  - simpl. now destruct (cfn_describeStacks w _).
  - simpl. now destruct (cfn_deleteStack w _).
  - simpl. now destruct (cfn_describeStackEvents w k _).
Qed.

(** ** Discovery and the launch-type scopes *)

Lemma getAllServicesFor_log (w : World) (lts : list LaunchType)
  (cluster : string) :
  calls (fst (ClusterCleanup.getAllServicesFor w lts cluster))
  = map (ListServices cluster) lts.
Proof.
  unfold ClusterCleanup.getAllServicesFor, bind. cbn [fst snd].
  rewrite fan_out_log, fan_out_value, !calls_app, calls_map_Call.
  destruct (Promise_all _); simpl; now rewrite !app_nil_r.
Qed.

Lemma getAllServicesFor_value (w : World) (lts : list LaunchType)
  (cluster : string) :
  snd (ClusterCleanup.getAllServicesFor w lts cluster)
  = match Promise_all (map (ecs_listServices w cluster) lts) with
    | inr rs => List.concat rs
    | inl _ => []
    end.
Proof.
  unfold ClusterCleanup.getAllServicesFor, bind. cbn [fst snd].
  rewrite fan_out_value.
  destruct (Promise_all _); simpl; [reflexivity|]. now rewrite reduce_concat.
Qed.

(** C7, as the code has it: an instance built from a configuration holds the
    scope EC2 first and FARGATE after it when the flag is set; the discovery
    of services issues one listing per scope, in that order, and merges the
    replies in that order (nothing when a listing fails); the discovery of
    tasks and of container instances each issue a single listing that names
    no scope, whatever the scopes are. *)
Theorem services_are_listed_per_scope_tasks_and_instances_once :
  forall (w : World) (c : Config) (lts : list LaunchType) (cluster : string),
    ClusterCleanup.launchTypes (fst (ClusterCleanup.constructor (Some c)))
    = Some (EC2 :: if truthy (enableFargate c) then [FARGATE] else [])
    /\ calls (fst (ClusterCleanup.getAllServicesFor w lts cluster))
       = map (ListServices cluster) lts
    /\ queries_each_scope lts
         (calls (fst (ClusterCleanup.getAllServicesFor w lts cluster))) = true
    /\ snd (ClusterCleanup.getAllServicesFor w lts cluster)
       = match Promise_all (map (ecs_listServices w cluster) lts) with
         | inr rs => List.concat rs
         | inl _ => []
         end
    /\ calls (fst (ClusterCleanup.getAllTasksFor w cluster))
       = [ListTasks cluster]
    /\ calls (fst (ClusterCleanup.getAllInstancesFor w cluster))
       = [ListContainerInstances cluster].
Proof.
  intros w c lts cluster. repeat split.
  - unfold ClusterCleanup.constructor. now destruct (truthy (enableFargate c)).
  - apply getAllServicesFor_log.
  - rewrite getAllServicesFor_log. unfold queries_each_scope.
    apply forallb_forall. intros l Hl. apply existsb_exists.
    exists (ListServices cluster l). split; [now apply in_map|].
    now destruct l.
  - apply getAllServicesFor_value.
  - unfold ClusterCleanup.getAllTasksFor. simpl.
    now destruct (ecs_listTasks w cluster).
  - unfold ClusterCleanup.getAllInstancesFor. simpl.
    now destruct (ecs_listContainerInstances w cluster).
Qed.

(** C7 as stated fails: with both scopes enabled, the discovery of tasks and
    the discovery of container instances query neither scope. *)
Lemma tasks_and_instances_are_not_listed_per_scope :
  ~ (queries_each_scope [EC2; FARGATE]
       (calls (fst (ClusterCleanup.getAllTasksFor
                      (demo_world [] None no_stack (0%N, inr []) (fun _ => inr [])
                                  (inr (mkCluster "demo" "INACTIVE")))
                      "demo"))) = true
     /\ queries_each_scope [EC2; FARGATE]
       (calls (fst (ClusterCleanup.getAllInstancesFor
                      (demo_world [] None no_stack (0%N, inr []) (fun _ => inr [])
                                  (inr (mkCluster "demo" "INACTIVE")))
                      "demo"))) = true).
Proof. vm_compute. intros [H _]. discriminate H. Qed.

(** ** Construction *)

(** C10, as the code has it: both constructors throw a [TypeError] when the
    configuration is absent, but only after the clients and the list of
    scopes (and, for [ClusterCleanup], the emitter) have been assigned; the
    list of scopes is still the single scope EC2. *)
Theorem constructor_without_config_throws_after_assignments :
  (exists e,
      snd (ClusterCleanup.constructor None) = Some e
      /\ name e = "TypeError"
      /\ fst (ClusterCleanup.constructor None)
         = ClusterCleanup.mkInstance (Some None) (Some None) (Some [EC2])
             (Some tt))
  /\ (exists e,
         snd (ECSClusterManager.constructor None) = Some e
         /\ name e = "TypeError"
         /\ fst (ECSClusterManager.constructor None)
            = ECSClusterManager.mkInstance (Some None) (Some [EC2])).
Proof.
  split; eexists; repeat split; reflexivity.
Qed.

(** C10 as stated fails: when the constructors throw, fields of the instance
    have already been initialized. *)
Lemma constructor_throws_with_fields_assigned :
  ~ (snd (ClusterCleanup.constructor None) <> None
     /\ fst (ClusterCleanup.constructor None) = ClusterCleanup.blank)
  /\ ~ (snd (ECSClusterManager.constructor None) <> None
        /\ fst (ECSClusterManager.constructor None) = ECSClusterManager.blank).
Proof. split; intros [_ H]; discriminate H. Qed.

(** ** The shape of the gateway methods *)

Section Gateway.

Variable w : World.

Lemma describeCluster_shape (cluster : string) :
  ClusterCleanup.describeCluster w cluster
  = (Call (DescribeClusters [cluster]) :: Await
       :: error_if (ecs_describeClusters w [cluster]),
     value_or (ecs_describeClusters w [cluster])).
Proof.
  unfold ClusterCleanup.describeCluster.
  now destruct (ecs_describeClusters w [cluster]).
Qed.

Lemma describeStack_shape (cluster : string) :
  ClusterCleanup.describeStack w cluster
  = (Call (DescribeStacks (stack_name cluster)) :: Await
       :: error_if (cfn_describeStacks w (stack_name cluster)),
     nth_error (value_or (cfn_describeStacks w (stack_name cluster))) 0).
Proof.
  unfold ClusterCleanup.describeStack.
  now destruct (cfn_describeStacks w (stack_name cluster)).
Qed.

Lemma getAllTasksFor_shape (cluster : string) :
  ClusterCleanup.getAllTasksFor w cluster
  = (Call (ListTasks cluster) :: Await :: error_if (ecs_listTasks w cluster),
     value_or (ecs_listTasks w cluster)).
Proof.
  unfold ClusterCleanup.getAllTasksFor. now destruct (ecs_listTasks w cluster).
Qed.

Lemma getAllInstancesFor_shape (cluster : string) :
  ClusterCleanup.getAllInstancesFor w cluster
  = (Call (ListContainerInstances cluster) :: Await
       :: error_if (ecs_listContainerInstances w cluster),
     value_or (ecs_listContainerInstances w cluster)).
Proof.
  unfold ClusterCleanup.getAllInstancesFor.
  now destruct (ecs_listContainerInstances w cluster).
Qed.

Lemma describeStackEvents_shape (k : nat) (cluster : string) :
  ClusterCleanup.describeStackEvents w k cluster
  = (Call (DescribeStackEvents (stack_name cluster)) :: Await
       :: error_if (cfn_describeStackEvents w k (stack_name cluster)),
     value_or (cfn_describeStackEvents w k (stack_name cluster))).
Proof.
  unfold ClusterCleanup.describeStackEvents.
  now destruct (cfn_describeStackEvents w k (stack_name cluster)).
Qed.

Lemma describeStackResources_shape (stackId resourceId : string) :
  ClusterCleanup.describeStackResources w stackId resourceId
  = (Call (DescribeStackResources stackId resourceId) :: Await
       :: error_if (cfn_describeStackResources w stackId resourceId),
     value_or (cfn_describeStackResources w stackId resourceId)).
Proof.
  unfold ClusterCleanup.describeStackResources.
  now destruct (cfn_describeStackResources w stackId resourceId).
Qed.

Lemma deleteStack_log (cluster : string) :
  fst (ClusterCleanup.deleteStack w cluster)
  = Call (DeleteStack (stack_name cluster)) :: Await
      :: error_if (cfn_deleteStack w (stack_name cluster)).
Proof.
  unfold ClusterCleanup.deleteStack.
  now destruct (cfn_deleteStack w (stack_name cluster)).
Qed.

Lemma deleteCluster_shape (cluster : string) :
  ClusterCleanup.deleteCluster w cluster
  = (Call (DeleteCluster cluster) :: Await
       :: match ecs_deleteCluster w cluster with
          | inl e => [Emit doneWithError (PError e)]
          | inr _ => []
          end,
     match ecs_deleteCluster w cluster with
     | inr c => Some c
     | inl _ => None
     end).
Proof.
  unfold ClusterCleanup.deleteCluster.
  now destruct (ecs_deleteCluster w cluster).
Qed.

Lemma getAllServicesFor_shape (lts : list LaunchType) (cluster : string) :
  ClusterCleanup.getAllServicesFor w lts cluster
  = (map (fun l => Call (ListServices cluster l)) lts ++ Await
       :: error_if (Promise_all (map (ecs_listServices w cluster) lts)),
     List.concat (value_or (Promise_all (map (ecs_listServices w cluster) lts)))).
Proof.
  unfold ClusterCleanup.getAllServicesFor, bind.
  rewrite fan_out_log, fan_out_value.
  destruct (Promise_all _); cbn [fst snd error_if value_or emit tell ret].
  - now rewrite <- app_assoc.
  - now rewrite reduce_concat, app_nil_r.
Qed.

Lemma scaleServicesToZero_shape (cluster : string) (xs : list string) :
  ClusterCleanup.scaleServicesToZero w cluster xs
  = (map (fun s => Call (UpdateService cluster s 0)) xs ++ Await
       :: error_if (Promise_all
                      (map (fun s => ecs_updateService w cluster s 0) xs)),
     value_or (Promise_all (map (fun s => ecs_updateService w cluster s 0) xs))).
Proof.
  unfold ClusterCleanup.scaleServicesToZero, bind.
  rewrite fan_out_log, fan_out_value.
  destruct (Promise_all _); cbn [fst snd error_if value_or emit tell ret].
  - now rewrite <- app_assoc.
  - now rewrite reduce_concat_one, app_nil_r.
Qed.

Lemma stopTasks_shape (cluster : string) (xs : list string) :
  ClusterCleanup.stopTasks w cluster xs
  = (map (fun t => Call (StopTask t cluster "Cluster being deleted")) xs
       ++ Await
       :: error_if (Promise_all
                      (map (fun t => ecs_stopTask w t cluster
                                       "Cluster being deleted") xs)),
     value_or (Promise_all
                 (map (fun t => ecs_stopTask w t cluster
                                  "Cluster being deleted") xs))).
Proof.
  unfold ClusterCleanup.stopTasks, bind.
  rewrite fan_out_log, fan_out_value.
  destruct (Promise_all _); cbn [fst snd error_if value_or emit tell ret].
  - now rewrite <- app_assoc.
  - now rewrite map_id, app_nil_r.
Qed.

Lemma deregisterContainerInstances_shape (cluster : string)
  (xs : list string) :
  ClusterCleanup.deregisterContainerInstances w cluster xs
  = (map (fun i => Call (DeregisterContainerInstance cluster i true)) xs
       ++ Await
       :: error_if (Promise_all
                      (map (fun i => ecs_deregisterContainerInstance w cluster
                                       i true) xs)),
     value_or (Promise_all
                 (map (fun i => ecs_deregisterContainerInstance w cluster
                                  i true) xs))).
Proof.
  unfold ClusterCleanup.deregisterContainerInstances, bind.
  rewrite fan_out_log, fan_out_value.
  destruct (Promise_all _); cbn [fst snd error_if value_or emit tell ret].
  - now rewrite <- app_assoc.
  - now rewrite reduce_concat_one, app_nil_r.
Qed.

Lemma deleteAllServices_shape (cluster : string) (xs : list string) :
  ClusterCleanup.deleteAllServices w cluster xs
  = (map (fun s => Call (DeleteService cluster s)) xs ++ Await
       :: error_if (Promise_all (map (ecs_deleteService w cluster) xs)),
     value_or (Promise_all (map (ecs_deleteService w cluster) xs))).
Proof.
  unfold ClusterCleanup.deleteAllServices, bind.
  rewrite fan_out_log, fan_out_value.
  destruct (Promise_all _); cbn [fst snd error_if value_or emit tell ret].
  - now rewrite <- app_assoc.
  - now rewrite reduce_concat_one, app_nil_r.
Qed.

End Gateway.

(** ** The pipeline, block by block *)

Lemma deleteHelper_blocks (w : World) (lts : list LaunchType)
  (cluster : string) (options : Options) :
  ClusterCleanup.deleteHelper w lts cluster options
  = (emit start (PString cluster) ;;
     exists_ <- await (ClusterCleanup.doesClusterExist w cluster) ;;
     if negb exists_ then emit doneWithError (PError (not_found cluster))
     else teardown w lts cluster options).
Proof. reflexivity. Qed.

Lemma filters_empty_iff_none (cluster : string) (cl : list Cluster) :
  negb (List.length
          (filter (fun c => clusterName c =? cluster)%string
             (filter (fun c => negb (status c =? "INACTIVE")%string) cl)) =? 0)
  = existsb (fun c => negb (status c =? "INACTIVE")%string
                      && (clusterName c =? cluster)%string) cl.
Proof.
  induction cl as [|c cl IH]; simpl; [reflexivity|].
  destruct (status c =? "INACTIVE")%string; simpl; [exact IH|].
  destruct (clusterName c =? cluster)%string; simpl; [reflexivity|exact IH].
Qed.

Lemma doesClusterExist_shape (w : World) (cluster : string) :
  ClusterCleanup.doesClusterExist w cluster
  = (Call (DescribeClusters [cluster]) :: Await
       :: error_if (ecs_describeClusters w [cluster]) ++ [Await],
     existsb (fun c => negb (status c =? "INACTIVE")%string
                       && (clusterName c =? cluster)%string)
       (value_or (ecs_describeClusters w [cluster]))).
Proof.
  unfold ClusterCleanup.doesClusterExist, await, bind.
  rewrite describeCluster_shape. cbn [fst snd tell ret].
  rewrite filters_empty_iff_none. now rewrite app_nil_r.
Qed.

Lemma deleteHelper_absent (w : World) (lts : list LaunchType)
  (cluster : string) (options : Options) :
  snd (ClusterCleanup.doesClusterExist w cluster) = false ->
  fst (ClusterCleanup.deleteHelper w lts cluster options)
  = Emit start (PString cluster)
      :: fst (ClusterCleanup.doesClusterExist w cluster)
      ++ [Await; Emit doneWithError (PError (not_found cluster))].
Proof.
  intros H. rewrite deleteHelper_blocks. unfold await, bind.
  cbn [fst snd emit tell ret]. rewrite H. cbn [negb fst snd].
  now rewrite <- !app_assoc.
Qed.

Lemma deleteHelper_present (w : World) (lts : list LaunchType)
  (cluster : string) (options : Options) :
  snd (ClusterCleanup.doesClusterExist w cluster) = true ->
  fst (ClusterCleanup.deleteHelper w lts cluster options)
  = Emit start (PString cluster)
      :: fst (ClusterCleanup.doesClusterExist w cluster)
      ++ Await :: fst (teardown w lts cluster options).
Proof.
  intros H. rewrite deleteHelper_blocks. unfold await, bind.
  cbn [fst snd emit tell ret]. rewrite H. cbn [negb fst snd].
  now rewrite <- !app_assoc.
Qed.

(** ** A cluster that is not there *)

(** C6, as the code has it: when every cluster of that name that the
    description shows is INACTIVE (in particular when it shows none, or is
    rejected), the pipeline emits [start] and ends with [doneWithError]
    carrying the error that names the cluster; nothing comes between the
    two when the description succeeds, and the one error event of the
    rejection when it is rejected.  The only call issued is that
    description: no resource is scaled, stopped, deregistered or deleted. *)
Theorem absent_or_inactive_cluster_stops_at_once :
  forall (w : World) (lts : list LaunchType) (cluster : string)
         (options : Options),
    (forall c, In c (value_or (ecs_describeClusters w [cluster])) ->
               clusterName c = cluster -> status c = "INACTIVE") ->
    events (fst (ClusterCleanup.deleteHelper w lts cluster options))
    = (start, PString cluster)
        :: match ecs_describeClusters w [cluster] with
           | inl e => [(error, PError e)]
           | inr _ => []
           end
        ++ [(doneWithError, PError (not_found cluster))]
    /\ message (not_found cluster)
       = String.append "Cluster "
           (String.append cluster " does not exist in the region specified")
    /\ calls (fst (ClusterCleanup.deleteHelper w lts cluster options))
       = [DescribeClusters [cluster]]
    /\ forallb (fun r => negb (is_mutation r))
         (calls (fst (ClusterCleanup.deleteHelper w lts cluster options)))
       = true.
Proof.
  intros w lts cluster options Hin.
  assert (Hno : snd (ClusterCleanup.doesClusterExist w cluster) = false).
  { rewrite doesClusterExist_shape. cbn [snd].
    apply not_true_is_false. intros H. apply existsb_exists in H.
    destruct H as [c [Hc H]]. apply andb_prop in H. destruct H as [Hs Hn].
    apply String.eqb_eq in Hn. rewrite (Hin c Hc Hn) in Hs. discriminate Hs. }
  rewrite (deleteHelper_absent w lts cluster options Hno).
  rewrite doesClusterExist_shape. cbn [fst].
  destruct (ecs_describeClusters w [cluster]); repeat split.
Qed.

Lemma absent_or_inactive_cluster_stops_at_once_witness :
  events (fst (ClusterCleanup.deleteHelper
                 (mkWorld (fun _ => inr [mkCluster "demo" "INACTIVE"])
                    (fun _ _ => inr ["web"])
                    (fun _ s _ => inr (mkService s s))
                    (fun _ => inr ["task"])
                    (fun t _ _ => inr (mkTask t))
                    (fun _ => inr ["box"])
                    (fun _ i _ => inr (mkContainerInstance i))
                    (fun _ s => inr (mkService s s))
                    (fun _ => inr (mkCluster "demo" "INACTIVE"))
                    (fun _ => inr [demo_stack])
                    (fun _ => inr tt)
                    (fun _ _ => inr [])
                    (fun _ _ => inr [])
                    (fun _ => (0%N, inr [])))
                 [EC2] "demo" (mkOptions None)))
  = [(start, PString "demo"); (doneWithError, PError (not_found "demo"))].
Proof.
  refine (proj1 (absent_or_inactive_cluster_stops_at_once _ [EC2] "demo"
                   (mkOptions None) _)).
  simpl. intros c [<-|[]] _. reflexivity.
Defined.

(** C6 as stated fails: when the description of a cluster that is not there
    is rejected, an error event stands between [start] and
    [doneWithError]. *)
Lemma rejected_description_adds_an_error_event :
  kinds (fst (ClusterCleanup.deleteHelper
                (mkWorld (fun _ => inl (new_Error "ThrottlingException"))
                   (fun _ _ => inr [])
                   (fun _ s _ => inr (mkService s s))
                   (fun _ => inr [])
                   (fun t _ _ => inr (mkTask t))
                   (fun _ => inr [])
                   (fun _ i _ => inr (mkContainerInstance i))
                   (fun _ s => inr (mkService s s))
                   (fun _ => inl (new_Error "ClusterNotFoundException"))
                   (fun _ => no_stack)
                   (fun _ => inr tt)
                   (fun _ _ => inr [])
                   (fun _ _ => inr [])
                   (fun _ => (0%N, inr [])))
                [EC2] "demo" (mkOptions None)))
  <> [start; doneWithError].
Proof. vm_compute. discriminate. Qed.

(** ** The blocks of the pipeline *)

Section BlockLogs.

Variable w : World.
Variable lts : list LaunchType.
Variable cluster : string.
Variable options : Options.

Lemma teardown_log :
  let stack := snd (ClusterCleanup.describeStack w cluster) in
  let found := snd (ClusterCleanup.getAllServicesFor w lts cluster) in
  let services := snd (services_block w cluster found) in
  fst (teardown w lts cluster options)
  = fst (ClusterCleanup.describeStack w cluster)
      ++ Await
      :: match stack with
         | Some s => [Emit stackFound (PStack s)]
         | None => []
         end
      ++ fst (ClusterCleanup.getAllServicesFor w lts cluster)
      ++ Await :: fst (services_block w cluster found)
      ++ fst (ClusterCleanup.getAllTasksFor w cluster)
      ++ Await
      :: fst (tasks_block w cluster
                (snd (ClusterCleanup.getAllTasksFor w cluster)))
      ++ fst (ClusterCleanup.getAllInstancesFor w cluster)
      ++ Await
      :: fst (instances_block w cluster
                (snd (ClusterCleanup.getAllInstancesFor w cluster)))
      ++ fst (delete_block w cluster found services)
      ++ fst (stack_block w cluster options stack).
Proof.
  cbv zeta. unfold teardown, await, bind. cbn [fst snd tell ret].
  rewrite <- !app_assoc. cbn [app].
  destruct (snd (ClusterCleanup.describeStack w cluster));
    cbn [fst snd emit tell ret app]; rewrite ?app_nil_r; reflexivity.
Qed.

Lemma services_block_kinds (found : list string) :
  kinds (fst (services_block w cluster found))
  = if 0 <? List.length found then
      servicesFound
        :: match Promise_all (map (fun s => ecs_updateService w cluster s 0)
                                found) with
           | inl _ => [error]
           | inr _ => []
           end
        ++ [servicesScaledDown]
    else [].
Proof.
  unfold services_block. destruct (0 <? List.length found); [|reflexivity].
  unfold await, bind. rewrite scaleServicesToZero_shape.
  cbn [fst snd emit tell ret app]. log_simpl. reflexivity.
Qed.

End BlockLogs.

Section MoreBlockLogs.

Variable w : World.
Variable cluster : string.

Lemma services_block_events (found : list string) :
  events (fst (services_block w cluster found))
  = if 0 <? List.length found then
      (servicesFound, PArns found)
        :: events (error_if (Promise_all
                               (map (fun s => ecs_updateService w cluster s 0)
                                  found)))
        ++ [(servicesScaledDown,
             PServices (snd (ClusterCleanup.scaleServicesToZero w cluster
                               found)))]
    else [].
Proof.
  unfold services_block. destruct (0 <? List.length found); [|reflexivity].
  unfold await, bind. rewrite scaleServicesToZero_shape.
  cbn [fst snd emit tell ret app]. log_simpl. reflexivity.
Qed.

Lemma services_block_value (found : list string) :
  snd (services_block w cluster found)
  = if 0 <? List.length found
    then snd (ClusterCleanup.scaleServicesToZero w cluster found)
    else [].
Proof.
  unfold services_block. now destruct (0 <? List.length found).
Qed.

Lemma tasks_block_events (found : list string) :
  events (fst (tasks_block w cluster found))
  = if 0 <? List.length found then
      (tasksFound, PArns found)
        :: events (error_if (Promise_all
                               (map (fun t => ecs_stopTask w t cluster
                                                "Cluster being deleted")
                                  found)))
        ++ [(tasksStopped,
             PTasks (snd (ClusterCleanup.stopTasks w cluster found)))]
    else [].
Proof.
  unfold tasks_block. destruct (0 <? List.length found); [|reflexivity].
  unfold await, bind. rewrite stopTasks_shape.
  cbn [fst snd emit tell ret app]. log_simpl. reflexivity.
Qed.

Lemma instances_block_events (found : list string) :
  events (fst (instances_block w cluster found))
  = if 0 <? List.length found then
      (instancesFound, PArns found)
        :: events (error_if
                     (Promise_all
                        (map (fun i => ecs_deregisterContainerInstance w
                                         cluster i true) found)))
        ++ [(instancesDeregistered,
             PInstances (snd (ClusterCleanup.deregisterContainerInstances w
                                cluster found)))]
    else [].
Proof.
  unfold instances_block. destruct (0 <? List.length found); [|reflexivity].
  unfold await, bind. rewrite deregisterContainerInstances_shape.
  cbn [fst snd emit tell ret app]. log_simpl. reflexivity.
Qed.

Lemma delete_block_events (found : list string) (services : list Service) :
  events (fst (delete_block w cluster found services))
  = if 0 <? List.length found then
      events (error_if (Promise_all
                          (map (ecs_deleteService w cluster)
                             (map serviceName services))))
        ++ [(servicesDeleted, PServices services)]
    else [].
Proof.
  unfold delete_block. destruct (0 <? List.length found); [|reflexivity].
  unfold await, bind. rewrite deleteAllServices_shape.
  cbn [fst snd emit tell ret app]. log_simpl. reflexivity.
Qed.

Lemma finish_events (options : Options) :
  events (fst (finish w cluster options))
  = match ecs_deleteCluster w cluster with
    | inl e => [(doneWithError, PError e); (clusterDeleted, PUndefined)]
    | inr c => [(clusterDeleted, PCluster c)]
    end ++ [(done, PString cluster)].
Proof.
  unfold finish, await, bind. rewrite deleteCluster_shape.
  cbn [fst snd emit tell ret app].
  destruct (ecs_deleteCluster w cluster), (truthy (verbose options));
    reflexivity.
Qed.

Lemma finish_calls (options : Options) :
  calls (fst (finish w cluster options)) = [DeleteCluster cluster].
Proof.
  unfold finish, await, bind. rewrite deleteCluster_shape.
  cbn [fst snd emit tell ret app].
  destruct (ecs_deleteCluster w cluster), (truthy (verbose options));
    reflexivity.
Qed.

End MoreBlockLogs.

(** ** The bounded poller *)

Section Poller.

Variable w : World.
Variable cluster : string.

Lemma forEach_report_shape (es : list StackEvent) (alreadyDeleted : list string) :
  ClusterCleanup.forEach_report es alreadyDeleted
  = (map (fun e => Emit resourceDeleted (PStackEvent e)) es,
     alreadyDeleted ++ map LogicalResourceId es).
Proof.
  revert alreadyDeleted. induction es as [|e es IH]; intros ad.
  - simpl. now rewrite app_nil_r.
  - cbn [ClusterCleanup.forEach_report]. unfold bind. rewrite IH.
    cbn [fst snd emit tell app map]. now rewrite <- app_assoc.
Qed.

Lemma pollEvent_shape (k : nat) (alreadyDeleted : list string) :
  ClusterCleanup.pollEvent w k cluster alreadyDeleted
  = (fst (ClusterCleanup.describeStackEvents w k cluster)
       ++ Await
       :: map (fun e => Emit resourceDeleted (PStackEvent e))
            (filter (fun e => negb (ClusterCleanup.includes alreadyDeleted
                                      (LogicalResourceId e)))
               (filter (fun e => (ResourceStatus e =? "DELETE_COMPLETE")%string)
                  (snd (ClusterCleanup.describeStackEvents w k cluster)))),
     alreadyDeleted
       ++ map LogicalResourceId
            (filter (fun e => negb (ClusterCleanup.includes alreadyDeleted
                                      (LogicalResourceId e)))
               (filter (fun e => (ResourceStatus e =? "DELETE_COMPLETE")%string)
                  (snd (ClusterCleanup.describeStackEvents w k cluster))))).
Proof.
  unfold ClusterCleanup.pollEvent, await, bind.
  rewrite forEach_report_shape. cbn [fst snd tell ret].
  now rewrite <- !app_assoc.
Qed.

Lemma poll_log (s : Stack) :
  fst (ClusterCleanup.pollCloudFormationForChanges w cluster s)
  = [Call (WaitForStackDeleteComplete (StackId s))].
Proof.
  unfold ClusterCleanup.pollCloudFormationForChanges, bind.
  cbn [fst snd remote].
  destruct (_ <? _)%N; [|reflexivity].
  now destruct (snd (cfn_waitFor_stackDeleteComplete w (StackId s))).
Qed.

Lemma poll_settled (s : Stack) :
  settled (snd (ClusterCleanup.pollCloudFormationForChanges w cluster s))
  = if (fst (cfn_waitFor_stackDeleteComplete w (StackId s)) <? TEN_MINUTES)%N
    then snd (cfn_waitFor_stackDeleteComplete w (StackId s))
    else inl (new_Error "CloudFormation stack deletion timed out!").
Proof.
  unfold ClusterCleanup.pollCloudFormationForChanges, bind.
  cbn [fst snd remote].
  destruct (_ <? _)%N; [|reflexivity].
  now destruct (snd (cfn_waitFor_stackDeleteComplete w (StackId s))).
Qed.

Lemma poll_while_pending (s : Stack) :
  while_pending (snd (ClusterCleanup.pollCloudFormationForChanges w cluster s))
  = fst (ClusterCleanup.setupCloudFormationPolling w cluster
           (ticks_before
              (N.min (fst (cfn_waitFor_stackDeleteComplete w (StackId s)))
                 TEN_MINUTES)) 1 []).
Proof.
  unfold ClusterCleanup.pollCloudFormationForChanges, bind.
  cbn [fst snd remote].
  destruct (_ <? _)%N eqn:E.
  - apply N.ltb_lt in E. rewrite N.min_l by lia.
    now destruct (snd (cfn_waitFor_stackDeleteComplete w (StackId s))).
  - apply N.ltb_ge in E. now rewrite N.min_r by lia.
Qed.

Lemma poll_afterwards (s : Stack) :
  afterwards (snd (ClusterCleanup.pollCloudFormationForChanges w cluster s))
  = if (fst (cfn_waitFor_stackDeleteComplete w (StackId s)) <? TEN_MINUTES)%N
    then match snd (cfn_waitFor_stackDeleteComplete w (StackId s)) with
         | inr _ => []
         | inl _ =>
             fst (ClusterCleanup.setupCloudFormationPolling w cluster
                    (ticks_before TEN_MINUTES
                     - ticks_before
                         (fst (cfn_waitFor_stackDeleteComplete w (StackId s))))
                    (S (ticks_before
                          (fst (cfn_waitFor_stackDeleteComplete w
                                  (StackId s)))))
                    (snd (ClusterCleanup.setupCloudFormationPolling w cluster
                            (ticks_before
                               (fst (cfn_waitFor_stackDeleteComplete w
                                       (StackId s)))) 1 [])))
         end
    else [].
Proof.
  unfold ClusterCleanup.pollCloudFormationForChanges, bind.
  cbn [fst snd remote].
  destruct (_ <? _)%N; [|reflexivity].
  now destruct (snd (cfn_waitFor_stackDeleteComplete w (StackId s))).
Qed.

Lemma stack_block_log (options : Options) (s : Stack) :
  let race := snd (ClusterCleanup.pollCloudFormationForChanges w cluster s) in
  fst (stack_block w cluster options (Some s))
  = fst (ClusterCleanup.deleteStack w cluster)
      ++ Await :: Emit stackDeletionStarted (PString (StackId s))
      :: Call (WaitForStackDeleteComplete (StackId s)) :: Await
      :: while_pending race
      ++ match settled race with
         | inr _ =>
             Emit stackDeletionDone (PString (StackId s))
               :: fst (finish w cluster options)
         | inl e => [Emit doneWithError (PError e)]
         end
      ++ afterwards race.
Proof.
  cbv zeta. unfold stack_block, ClusterCleanup.await_race, await, bind.
  rewrite poll_log. cbn [fst snd emit tell ret app].
  rewrite <- !app_assoc. cbn [app]. rewrite ?app_nil_r.
  destruct (settled _); cbn [fst snd app]; now rewrite <- ?app_assoc.
Qed.

End Poller.

(** ** Mutation steps with a refused call *)



Section PipelineEvents.

Variable w : World.
Variable lts : list LaunchType.
Variable cluster : string.
Variable options : Options.

Lemma teardown_events :
  let stack := snd (ClusterCleanup.describeStack w cluster) in
  let found := snd (ClusterCleanup.getAllServicesFor w lts cluster) in
  events (fst (teardown w lts cluster options))
  = events (fst (ClusterCleanup.describeStack w cluster))
      ++ match stack with
         | Some s => [(stackFound, PStack s)]
         | None => []
         end
      ++ events (fst (ClusterCleanup.getAllServicesFor w lts cluster))
      ++ events (fst (services_block w cluster found))
      ++ events (fst (ClusterCleanup.getAllTasksFor w cluster))
      ++ events (fst (tasks_block w cluster
                        (snd (ClusterCleanup.getAllTasksFor w cluster))))
      ++ events (fst (ClusterCleanup.getAllInstancesFor w cluster))
      ++ events (fst (instances_block w cluster
                        (snd (ClusterCleanup.getAllInstancesFor w cluster))))
      ++ events (fst (delete_block w cluster found
                        (snd (services_block w cluster found))))
      ++ events (fst (stack_block w cluster options stack)).
Proof.
  cbv zeta. rewrite teardown_log.
  destruct (snd (ClusterCleanup.describeStack w cluster)); log_simpl;
    reflexivity.
Qed.

Lemma deleteHelper_events_present :
  snd (ClusterCleanup.doesClusterExist w cluster) = true ->
  events (fst (ClusterCleanup.deleteHelper w lts cluster options))
  = (start, PString cluster)
      :: events (fst (ClusterCleanup.doesClusterExist w cluster))
      ++ events (fst (teardown w lts cluster options)).
Proof.
  intros H. rewrite (deleteHelper_present w lts cluster options H).
  log_simpl. reflexivity.
Qed.

Lemma stack_block_events (s : Stack) :
  let race := snd (ClusterCleanup.pollCloudFormationForChanges w cluster s) in
  events (fst (stack_block w cluster options (Some s)))
  = events (fst (ClusterCleanup.deleteStack w cluster))
      ++ (stackDeletionStarted, PString (StackId s))
      :: events (while_pending race)
      ++ match settled race with
         | inr _ =>
             (stackDeletionDone, PString (StackId s))
               :: events (fst (finish w cluster options))
         | inl e => [(doneWithError, PError e)]
         end
      ++ events (afterwards race).
Proof.
  cbv zeta. rewrite stack_block_log.
  destruct (settled _); log_simpl; reflexivity.
Qed.



End PipelineEvents.





(** ** Runs in which every call succeeds *)

Lemma Promise_all_map_ok {A R} (reply : A -> Error + R) (xs : list A) :
  (forall x, rejection (reply x) = None) ->
  exists vs, Promise_all (map reply xs) = inr vs.
Proof.
  intros H. exists (successes (map reply xs)). apply Promise_all_successes.
  intros r Hr. apply in_map_iff in Hr. destruct Hr as [x [<- _]]. apply H.
Qed.

Lemma Promise_all_map_successes {A R} (reply : A -> Error + R) (xs : list A) :
  (forall x, In x xs -> rejection (reply x) = None) ->
  Promise_all (map reply xs) = inr (successes (map reply xs)).
Proof.
  intros H. apply Promise_all_successes. intros r Hr.
  apply in_map_iff in Hr. destruct Hr as [x [<- Hx]]. now apply H.
Qed.

Lemma kinds_map_resourceDeleted (es : list StackEvent) :
  kinds (map (fun e => Emit resourceDeleted (PStackEvent e)) es)
  = repeat resourceDeleted (List.length es).
Proof.
  induction es as [|e es IH]; [reflexivity|].
  cbn [map List.length repeat]. now rewrite kinds_Emit, IH.
Qed.

Lemma polling_kinds_ok (w : World) (cluster : string) (n k : nat)
  (alreadyDeleted : list string) :
  (forall i, k <= i < k + n ->
             rejection (cfn_describeStackEvents w i (stack_name cluster))
             = None) ->
  exists r,
    kinds (fst (ClusterCleanup.setupCloudFormationPolling w cluster n k
                  alreadyDeleted))
    = repeat resourceDeleted r.
Proof.
  revert k alreadyDeleted.
  induction n as [|n IH]; intros k ad H.
  - exists 0. reflexivity.
  - cbn [ClusterCleanup.setupCloudFormationPolling]. unfold bind.
    cbn [fst snd]. rewrite pollEvent_shape. cbn [fst snd].
    match goal with
    | |- context [ClusterCleanup.setupCloudFormationPolling w cluster n (S k)
                    ?a] =>
        destruct (IH (S k) a) as [r Hr]; [intros i Hi; apply H; lia|]
    end.
    rewrite kinds_app, Hr, describeStackEvents_shape. cbn [fst snd].
    assert (Hk : rejection (cfn_describeStackEvents w k (stack_name cluster))
                 = None) by (apply H; lia).
    destruct (cfn_describeStackEvents w k (stack_name cluster));
      [discriminate Hk|].
    cbn [error_if value_or]. log_simpl.
    rewrite kinds_map_resourceDeleted, <- repeat_app.
    eexists. reflexivity.
Qed.

Lemma events_of_accepted_call {A} (r : request) (reply : Error + A) :
  rejection reply = None -> events (Call r :: Await :: error_if reply) = [].
Proof. intros H. destruct reply; [discriminate H|reflexivity]. Qed.

(** C5, as the code has it: for a cluster that exists and has a stack, when
    every discovery and every mutation the run issues succeeds and the
    stack goes in time, and no periodic check is still waiting for its
    reply when the wait for the stack settles (each reply is taken to
    arrive at once), the kinds of the events are, in order, [start],
    [stackFound], the pair of each resource kind that was found,
    [servicesDeleted] when services were found, [stackDeletionStarted],
    some [resourceDeleted], [stackDeletionDone], [clusterDeleted], [done].
    With no service found, [servicesDeleted] is left out together with the
    pair of the services. *)
Theorem full_run_emits_the_sequence :
  forall (w : World) (lts : list LaunchType) (cluster : string)
         (options : Options) (s : Stack) (rest : list Stack),
    rejection (ecs_describeClusters w [cluster]) = None ->
    snd (ClusterCleanup.doesClusterExist w cluster) = true ->
    cfn_describeStacks w (stack_name cluster) = inr (s :: rest) ->
    (forall l, In l lts -> rejection (ecs_listServices w cluster l) = None) ->
    rejection (ecs_listTasks w cluster) = None ->
    rejection (ecs_listContainerInstances w cluster) = None ->
    (forall step x, In x (discovered w lts step cluster) ->
                    step_failure w step cluster x = None) ->
    rejection (cfn_deleteStack w (stack_name cluster)) = None ->
    (fst (cfn_waitFor_stackDeleteComplete w (StackId s)) <? TEN_MINUTES)%N
    = true ->
    rejection (snd (cfn_waitFor_stackDeleteComplete w (StackId s))) = None ->
    (forall k,
        1 <= k <= ticks_before
                    (fst (cfn_waitFor_stackDeleteComplete w (StackId s))) ->
        rejection (cfn_describeStackEvents w k (stack_name cluster)) = None) ->
    rejection (ecs_deleteCluster w cluster) = None ->
    exists r,
      kinds (fst (ClusterCleanup.deleteHelper w lts cluster options))
      = emitted_sequence
          (List.length (snd (ClusterCleanup.getAllServicesFor w lts cluster)))
          (List.length (snd (ClusterCleanup.getAllTasksFor w cluster)))
          (List.length (snd (ClusterCleanup.getAllInstancesFor w cluster)))
          r.
Proof.
  intros w lts cluster options s rest Hdc Hex Hst Hls Hlt Hli Hmut Hds Ht Hw
    Hhist Hdel.
  assert (Hmin : N.min (fst (cfn_waitFor_stackDeleteComplete w (StackId s)))
                   TEN_MINUTES
                 = fst (cfn_waitFor_stackDeleteComplete w (StackId s))).
  { apply N.ltb_lt in Ht. apply N.min_l. lia. }
  destruct (polling_kinds_ok w cluster
              (ticks_before
                 (fst (cfn_waitFor_stackDeleteComplete w (StackId s)))) 1 [])
    as [r Hr].
  { intros i Hi. apply Hhist. lia. }
  exists r. unfold kinds in *.
  pose proof (Promise_all_map_successes _ _ (Hmut ScaleServices)) as Hscale.
  pose proof (Promise_all_map_successes _ _ (Hmut StopTasks)) as Hstop.
  pose proof (Promise_all_map_successes _ _ (Hmut DeregisterInstances))
    as Hgone.
  pose proof (Promise_all_map_successes _ _ (Hmut DeleteServices)) as Hdelete.
  cbn [discovered] in Hscale, Hstop, Hgone, Hdelete.
  assert (E0 : events (fst (ClusterCleanup.doesClusterExist w cluster)) = []).
  { rewrite doesClusterExist_shape. cbn [fst].
    destruct (ecs_describeClusters w [cluster]); [discriminate Hdc|].
    reflexivity. }
  assert (E1 : events (fst (ClusterCleanup.describeStack w cluster)) = []).
  { rewrite describeStack_shape, Hst. reflexivity. }
  assert (S1 : snd (ClusterCleanup.describeStack w cluster) = Some s).
  { rewrite describeStack_shape, Hst. reflexivity. }
  assert (E2 : events (fst (ClusterCleanup.getAllServicesFor w lts cluster))
               = []).
  { rewrite getAllServicesFor_shape. cbn [fst].
    rewrite (Promise_all_map_successes _ _ Hls). cbn [error_if].
    log_simpl. reflexivity. }
  assert (E3 : events (fst (ClusterCleanup.getAllTasksFor w cluster)) = []).
  { rewrite getAllTasksFor_shape. now apply events_of_accepted_call. }
  assert (E4 : events (fst (ClusterCleanup.getAllInstancesFor w cluster))
               = []).
  { rewrite getAllInstancesFor_shape. now apply events_of_accepted_call. }
  assert (E5 : events (fst (ClusterCleanup.deleteStack w cluster)) = []).
  { rewrite deleteStack_log. now apply events_of_accepted_call. }
  rewrite (deleteHelper_events_present w lts cluster options Hex),
    teardown_events, S1.
  rewrite services_block_events, tasks_block_events, instances_block_events,
    delete_block_events, stack_block_events.
  rewrite Hscale, Hstop, Hgone, Hdelete, E0, E1, E2, E3, E4, E5.
  rewrite poll_settled, poll_afterwards, poll_while_pending, Ht, Hmin,
    finish_events.
  destruct (snd (cfn_waitFor_stackDeleteComplete w (StackId s)));
    [discriminate Hw|].
  destruct (ecs_deleteCluster w cluster); [discriminate Hdel|].
  unfold emitted_sequence, pair_if.
  destruct (0 <? List.length
                   (snd (ClusterCleanup.getAllServicesFor w lts cluster))),
    (0 <? List.length (snd (ClusterCleanup.getAllTasksFor w cluster))),
    (0 <? List.length (snd (ClusterCleanup.getAllInstancesFor w cluster)));
    cbn [error_if events flat_map app map fst];
    rewrite ?map_app, ?Hr; reflexivity.
Qed.

Lemma full_run_emits_the_sequence_witness :
  exists r,
    kinds (fst (ClusterCleanup.deleteHelper
                  (demo_world ["web"] (Some "api") (inr [demo_stack])
                     (25000%N, inr [])
                     (fun k => if k <? 3 then inr [deleted "EcsInstanceAsg"]
                               else inl (new_Error "ThrottlingException"))
                     (inr (mkCluster "demo" "INACTIVE")))
                  [EC2] "demo" (mkOptions (Some true))))
    = emitted_sequence 1 0 0 r.
Proof.
  refine (full_run_emits_the_sequence
            (demo_world ["web"] (Some "api") (inr [demo_stack])
               (25000%N, inr [])
               (fun k => if k <? 3 then inr [deleted "EcsInstanceAsg"]
                         else inl (new_Error "ThrottlingException"))
               (inr (mkCluster "demo" "INACTIVE")))
            [EC2] "demo" (mkOptions (Some true)) demo_stack []
            _ _ _ _ _ _ _ _ _ _ _ _); try reflexivity.
  - intros l [<-|[]]. reflexivity.
  - intros step x Hx. destruct step; cbn in Hx;
      repeat (destruct Hx as [<-|Hx]; [reflexivity|]); destruct Hx.
  - intros k Hk. change (ticks_before _) with 2 in Hk.
    cbn [cfn_describeStackEvents demo_world].
    destruct k as [|[|[|k]]]; try reflexivity; lia.
Defined.

(** C5 as stated fails: with a stack and no service, task or instance, the
    run emits no [servicesDeleted], which the sequence of the specification
    keeps. *)
Lemma empty_cluster_run_has_no_servicesDeleted :
  ~ exists r,
      kinds (fst (ClusterCleanup.deleteHelper
                    (demo_world [] None (inr [demo_stack])
                       (5000%N, inr []) (fun _ => inr [])
                       (inr (mkCluster "demo" "INACTIVE")))
                    [EC2] "demo" (mkOptions None)))
      = claimed_sequence 0 0 0 r.
Proof. intros [r H]. vm_compute in H. discriminate H. Qed.

(** ** Where the pipeline breaks its own rules *)

(** C3: the code emits [clusterDeleted] and [done] after the terminal
    failure event of a refused deletion of the cluster.  Here the cluster
    exists, has no stack and nothing in it, and its deletion is refused. *)
Theorem refused_cluster_deletion_is_followed_by_done :
  events (fst (ClusterCleanup.deleteHelper
                 (demo_world [] None no_stack (0%N, inr []) (fun _ => inr [])
                    (inl (new_Error "ClusterContainsTasksException")))
                 [EC2] "demo" (mkOptions None)))
  = [(start, PString "demo");
     (error, PError (new_Error
        "Stack with id EC2ContainerService-demo does not exist"));
     (doneWithError, PError (new_Error "ClusterContainsTasksException"));
     (clusterDeleted, PUndefined);
     (done, PString "demo")]
  /\ after_doneWithError
       (kinds (fst (ClusterCleanup.deleteHelper
                      (demo_world [] None no_stack (0%N, inr [])
                         (fun _ => inr [])
                         (inl (new_Error "ClusterContainsTasksException")))
                      [EC2] "demo" (mkOptions None))))
     = [clusterDeleted; done].
Proof. split; reflexivity. Qed.

(** C4: when the wait for the deletion of the stack is rejected before the
    timer fires, the periodic check is not stopped, and what it reports
    comes after the terminal failure event.  Here the wait is rejected after
    35 seconds and the fourth check finds a resource deleted; the sequence
    does not end with [doneWithError], while no deletion of the cluster is
    issued and no [clusterDeleted] is emitted. *)
Theorem rejected_wait_leaves_the_periodic_check_running :
  kinds (fst (ClusterCleanup.deleteHelper
                (demo_world [] None (inr [demo_stack])
                   (35000%N, inl (new_Error "ResourceNotReady"))
                   (fun k => if k =? 4 then inr [deleted "EcsSecurityGroup"]
                             else inr [])
                   (inr (mkCluster "demo" "INACTIVE")))
                [EC2] "demo" (mkOptions None)))
  = [start; stackFound; stackDeletionStarted; doneWithError; resourceDeleted]
  /\ existsb (fun r => match r with DeleteCluster _ => true | _ => false end)
       (calls (fst (ClusterCleanup.deleteHelper
                      (demo_world [] None (inr [demo_stack])
                         (35000%N, inl (new_Error "ResourceNotReady"))
                         (fun k => if k =? 4
                                   then inr [deleted "EcsSecurityGroup"]
                                   else inr [])
                         (inr (mkCluster "demo" "INACTIVE")))
                      [EC2] "demo" (mkOptions None))))
     = false.
Proof. split; vm_compute; reflexivity. Qed.

(** C8: both filters of a periodic check run over the whole reply before the
    first identifier is remembered, so a history that holds two
    delete-complete events of one logical resource is reported twice by one
    check.  Here the first check reads such a history. *)
Theorem one_check_reports_a_resource_twice :
  reported_ids
    (fst (ClusterCleanup.deleteHelper
            (demo_world [] None (inr [demo_stack]) (15000%N, inr [])
               (fun _ => inr [mkStackEvent "event-7" "EcsInstanceAsg"
                                "DELETE_COMPLETE";
                              mkStackEvent "event-2" "EcsInstanceAsg"
                                "DELETE_COMPLETE"])
               (inr (mkCluster "demo" "INACTIVE")))
            [EC2] "demo" (mkOptions None)))
  = ["EcsInstanceAsg"; "EcsInstanceAsg"].
Proof. vm_compute. reflexivity. Qed.

(** ** Further properties of the orchestrator *)

(** The existence test answers yes exactly when the description of the
    cluster succeeds and lists a cluster of exactly that name whose status
    is not INACTIVE. *)
Theorem doesClusterExist_iff_named_and_not_inactive :
  forall (w : World) (cluster : string),
    snd (ClusterCleanup.doesClusterExist w cluster) = true
    <-> exists cl c,
        ecs_describeClusters w [cluster] = inr cl
        /\ In c cl /\ clusterName c = cluster /\ status c <> "INACTIVE".
Proof.
  intros w cluster. rewrite doesClusterExist_shape. cbn [snd]. split.
  - intros H. apply existsb_exists in H. destruct H as [c [Hc H]].
    apply andb_prop in H. destruct H as [Hs Hn].
    destruct (ecs_describeClusters w [cluster]) as [e|cl]; [destruct Hc|].
    exists cl, c. repeat split; auto.
    + now apply String.eqb_eq.
    + intros E. rewrite E in Hs. discriminate Hs.
  - intros [cl [c [Hr [Hc [Hn Hs]]]]]. rewrite Hr. cbn [value_or].
    apply existsb_exists. exists c. split; [exact Hc|].
    apply andb_true_intro. split.
    + apply negb_true_iff. now apply String.eqb_neq.
    + now apply String.eqb_eq.
Qed.

(** When the description of the cluster is rejected, the cluster counts as
    absent: the run emits [start], the error of the rejection, and
    [doneWithError] naming the cluster, and issues no other call. *)
Theorem rejected_description_counts_as_absent :
  forall (w : World) (lts : list LaunchType) (cluster : string)
         (options : Options) (e : Error),
    ecs_describeClusters w [cluster] = inl e ->
    events (fst (ClusterCleanup.deleteHelper w lts cluster options))
    = [(start, PString cluster); (error, PError e);
       (doneWithError, PError (not_found cluster))]
    /\ calls (fst (ClusterCleanup.deleteHelper w lts cluster options))
       = [DescribeClusters [cluster]].
Proof.
  intros w lts cluster options e He.
  assert (Hno : snd (ClusterCleanup.doesClusterExist w cluster) = false).
  { rewrite doesClusterExist_shape, He. reflexivity. }
  rewrite (deleteHelper_absent w lts cluster options Hno).
  rewrite doesClusterExist_shape, He. split; reflexivity.
Qed.

Lemma rejected_description_counts_as_absent_witness :
  calls (fst (ClusterCleanup.deleteHelper
                (mkWorld (fun _ => inl (new_Error "AccessDeniedException"))
                   (fun _ _ => inr ["web"])
                   (fun _ s _ => inr (mkService s s))
                   (fun _ => inr ["task"])
                   (fun t _ _ => inr (mkTask t))
                   (fun _ => inr ["box"])
                   (fun _ i _ => inr (mkContainerInstance i))
                   (fun _ s => inr (mkService s s))
                   (fun _ => inr (mkCluster "demo" "INACTIVE"))
                   (fun _ => inr [demo_stack])
                   (fun _ => inr tt)
                   (fun _ _ => inr [])
                   (fun _ _ => inr [])
                   (fun _ => (0%N, inr [])))
                [EC2] "demo" (mkOptions None)))
  = [DescribeClusters ["demo"]].
Proof.
  refine (proj2 (rejected_description_counts_as_absent _ [EC2] "demo"
                   (mkOptions None) (new_Error "AccessDeniedException") _)).
  reflexivity.
Defined.

(** ** The calls of a run *)

Lemma mutations_app (l1 l2 : list effect) :
  mutations (l1 ++ l2) = mutations l1 ++ mutations l2.
Proof. unfold mutations. now rewrite calls_app, filter_app. Qed.

Lemma mutations_nil : mutations [] = [].
Proof. reflexivity. Qed.

Lemma mutations_Emit (k : ClusterCleanupEvents) (p : payload)
  (l : list effect) : mutations (Emit k p :: l) = mutations l.
Proof. reflexivity. Qed.

Lemma mutations_Await (l : list effect) : mutations (Await :: l) = mutations l.
Proof. reflexivity. Qed.

Lemma mutations_ConsoleLog (p : payload) (l : list effect) :
  mutations (ConsoleLog p :: l) = mutations l.
Proof. reflexivity. Qed.

Lemma mutations_Call (r : request) (l : list effect) :
  mutations (Call r :: l)
  = if is_mutation r then r :: mutations l else mutations l.
Proof. reflexivity. Qed.

Lemma mutations_error_if {A} (r : Error + A) : mutations (error_if r) = [].
Proof. now destruct r. Qed.

Lemma mutations_map_Call {A} (req : A -> request) (xs : list A) :
  (forall x, is_mutation (req x) = true) ->
  mutations (map (fun x => Call (req x)) xs) = map req xs.
Proof.
  intros H. induction xs as [|x xs IH]; [reflexivity|].
  cbn [map]. now rewrite mutations_Call, H, IH.
Qed.

Lemma mutations_map_Call_none {A} (req : A -> request) (xs : list A) :
  (forall x, is_mutation (req x) = false) ->
  mutations (map (fun x => Call (req x)) xs) = [].
Proof.
  intros H. induction xs as [|x xs IH]; [reflexivity|].
  cbn [map]. now rewrite mutations_Call, H, IH.
Qed.

Lemma mutations_map_Emit {A} (k : ClusterCleanupEvents) (f : A -> payload)
  (xs : list A) : mutations (map (fun x => Emit k (f x)) xs) = [].
Proof. induction xs as [|x xs IH]; [reflexivity|]. exact IH. Qed.

Create Rewrite HintDb mut.
#[local] Hint Rewrite mutations_app mutations_nil mutations_Emit
  mutations_Await mutations_ConsoleLog mutations_Call
  @mutations_error_if : mut.

Ltac mut_simpl :=
  rewrite <- ?app_assoc; cbn [app];
  autorewrite with mut; cbn [is_mutation app]; rewrite ?app_nil_r.

Section CallsOfBlocks.

Variable w : World.
Variable cluster : string.

Lemma polling_mutations (n k : nat) (alreadyDeleted : list string) :
  mutations (fst (ClusterCleanup.setupCloudFormationPolling w cluster n k
                    alreadyDeleted)) = [].
Proof.
  revert k alreadyDeleted. induction n as [|n IH]; intros k ad;
    [reflexivity|].
  cbn [ClusterCleanup.setupCloudFormationPolling]. unfold bind.
  cbn [fst snd]. rewrite mutations_app, IH, pollEvent_shape,
    describeStackEvents_shape.
  cbn [fst snd]. mut_simpl.
  apply (mutations_map_Emit resourceDeleted PStackEvent).
Qed.

Lemma services_block_mutations (found : list string) :
  mutations (fst (services_block w cluster found))
  = map (fun s => UpdateService cluster s 0) found.
Proof.
  unfold services_block. destruct found as [|x found]; [reflexivity|].
  cbn [List.length Nat.ltb Nat.leb]. unfold await, bind.
  rewrite scaleServicesToZero_shape. cbn [fst snd emit tell ret].
  mut_simpl. now rewrite mutations_map_Call.
Qed.

Lemma tasks_block_mutations (found : list string) :
  mutations (fst (tasks_block w cluster found))
  = map (fun t => StopTask t cluster "Cluster being deleted") found.
Proof.
  unfold tasks_block. destruct found as [|x found]; [reflexivity|].
  cbn [List.length Nat.ltb Nat.leb]. unfold await, bind.
  rewrite stopTasks_shape. cbn [fst snd emit tell ret].
  mut_simpl. now rewrite mutations_map_Call.
Qed.

Lemma instances_block_mutations (found : list string) :
  mutations (fst (instances_block w cluster found))
  = map (fun i => DeregisterContainerInstance cluster i true) found.
Proof.
  unfold instances_block. destruct found as [|x found]; [reflexivity|].
  cbn [List.length Nat.ltb Nat.leb]. unfold await, bind.
  rewrite deregisterContainerInstances_shape. cbn [fst snd emit tell ret].
  mut_simpl. now rewrite mutations_map_Call.
Qed.

Lemma delete_block_mutations (found : list string) (services : list Service) :
  mutations (fst (delete_block w cluster found services))
  = if 0 <? List.length found
    then map (fun s => DeleteService cluster (serviceName s)) services
    else [].
Proof.
  unfold delete_block. destruct (0 <? List.length found); [|reflexivity].
  unfold await, bind. rewrite deleteAllServices_shape.
  cbn [fst snd emit tell ret]. mut_simpl.
  now rewrite mutations_map_Call, map_map.
Qed.

Lemma finish_mutations (options : Options) :
  mutations (fst (finish w cluster options)) = [DeleteCluster cluster].
Proof. unfold mutations. now rewrite finish_calls. Qed.

Lemma stack_block_mutations (options : Options) (stack : option Stack) :
  mutations (fst (stack_block w cluster options stack))
  = match stack with
    | Some s =>
        DeleteStack (stack_name cluster)
          :: if wait_fulfilled_in_time w s then [DeleteCluster cluster] else []
    | None => [DeleteCluster cluster]
    end.
Proof.
  destruct stack as [s|]; [|apply finish_mutations].
  rewrite stack_block_log, poll_settled, poll_afterwards, poll_while_pending,
    deleteStack_log.
  unfold wait_fulfilled_in_time.
  destruct (_ <? _)%N;
    [destruct (snd (cfn_waitFor_stackDeleteComplete w (StackId s)))|];
    mut_simpl; rewrite ?polling_mutations, ?finish_mutations; reflexivity.
Qed.

End CallsOfBlocks.

Lemma deleteHelper_mutations (w : World) (lts : list LaunchType)
  (cluster : string) (options : Options) :
  snd (ClusterCleanup.doesClusterExist w cluster) = true ->
  mutations (fst (ClusterCleanup.deleteHelper w lts cluster options))
  = map (fun s => UpdateService cluster s 0)
      (snd (ClusterCleanup.getAllServicesFor w lts cluster))
    ++ map (fun t => StopTask t cluster "Cluster being deleted")
         (snd (ClusterCleanup.getAllTasksFor w cluster))
    ++ map (fun i => DeregisterContainerInstance cluster i true)
         (snd (ClusterCleanup.getAllInstancesFor w cluster))
    ++ map (fun s => DeleteService cluster (serviceName s))
         (snd (services_block w cluster
                 (snd (ClusterCleanup.getAllServicesFor w lts cluster))))
    ++ match snd (ClusterCleanup.describeStack w cluster) with
       | Some s =>
           DeleteStack (stack_name cluster)
             :: if wait_fulfilled_in_time w s then [DeleteCluster cluster]
                else []
       | None => [DeleteCluster cluster]
       end.
Proof.
  intros Hex.
  rewrite (deleteHelper_present w lts cluster options Hex), teardown_log.
  rewrite doesClusterExist_shape. cbn [fst].
  assert (Hstack : forall st : option Stack,
             mutations match st with
                       | Some s => [Emit stackFound (PStack s)]
                       | None => []
                       end = []) by (now intros [s|]).
  assert (H1 : mutations (fst (ClusterCleanup.describeStack w cluster)) = [])
    by (rewrite describeStack_shape; cbn [fst]; now mut_simpl).
  assert (H2 : mutations (fst (ClusterCleanup.getAllServicesFor w lts cluster))
               = []).
  { rewrite getAllServicesFor_shape. cbn [fst]. mut_simpl.
    now rewrite mutations_map_Call_none. }
  assert (H3 : mutations (fst (ClusterCleanup.getAllTasksFor w cluster)) = [])
    by (rewrite getAllTasksFor_shape; cbn [fst]; now mut_simpl).
  assert (H4 : mutations (fst (ClusterCleanup.getAllInstancesFor w cluster))
               = [])
    by (rewrite getAllInstancesFor_shape; cbn [fst]; now mut_simpl).
  mut_simpl. rewrite Hstack, H1, H2, H3, H4.
  rewrite services_block_mutations, tasks_block_mutations,
    instances_block_mutations, delete_block_mutations, stack_block_mutations.
  cbn [app]. rewrite services_block_value.
  destruct (0 <? List.length _); reflexivity.
Qed.

(** In a run on a cluster that exists, the calls that change the remote
    side are, in this order: one scale-down to zero per service found, one
    stop (with the reason "Cluster being deleted") per task found, one
    forced deregistration per container instance found, one deletion per
    service that was scaled down (addressed by its name), then the
    deletion of the stack if one was found, and the deletion of the cluster
    unless a stack was found and did not go in time.  Nothing else is ever
    changed. *)
Theorem mutations_follow_the_discoveries :
  forall (w : World) (lts : list LaunchType) (cluster : string)
         (options : Options),
    snd (ClusterCleanup.doesClusterExist w cluster) = true ->
    mutations (fst (ClusterCleanup.deleteHelper w lts cluster options))
    = map (fun s => UpdateService cluster s 0)
        (snd (ClusterCleanup.getAllServicesFor w lts cluster))
      ++ map (fun t => StopTask t cluster "Cluster being deleted")
           (snd (ClusterCleanup.getAllTasksFor w cluster))
      ++ map (fun i => DeregisterContainerInstance cluster i true)
           (snd (ClusterCleanup.getAllInstancesFor w cluster))
      ++ map (fun s => DeleteService cluster (serviceName s))
           (snd (services_block w cluster
                   (snd (ClusterCleanup.getAllServicesFor w lts cluster))))
      ++ match snd (ClusterCleanup.describeStack w cluster) with
         | Some s =>
             DeleteStack (stack_name cluster)
               :: if wait_fulfilled_in_time w s then [DeleteCluster cluster]
                  else []
         | None => [DeleteCluster cluster]
         end.
Proof. intros. now apply deleteHelper_mutations. Qed.

Lemma mutations_follow_the_discoveries_witness :
  mutations (fst (ClusterCleanup.deleteHelper
                    (demo_world ["web"] None (inr [demo_stack])
                       (25000%N, inr []) (fun _ => inr [])
                       (inr (mkCluster "demo" "INACTIVE")))
                    [EC2] "demo" (mkOptions None)))
  = [UpdateService "demo" "web" 0; DeleteService "demo" "web";
     DeleteStack "EC2ContainerService-demo"; DeleteCluster "demo"].
Proof.
  refine (mutations_follow_the_discoveries
            (demo_world ["web"] None (inr [demo_stack])
               (25000%N, inr []) (fun _ => inr [])
               (inr (mkCluster "demo" "INACTIVE")))
            [EC2] "demo" (mkOptions None) _).
  reflexivity.
Defined.

Lemma deleteHelper_calls_absent (w : World) (lts : list LaunchType)
  (cluster : string) (options : Options) :
  snd (ClusterCleanup.doesClusterExist w cluster) = false ->
  calls (fst (ClusterCleanup.deleteHelper w lts cluster options))
  = [DescribeClusters [cluster]].
Proof.
  intros H. rewrite (deleteHelper_absent w lts cluster options H),
    doesClusterExist_shape.
  cbn [fst]. log_simpl. reflexivity.
Qed.

(** The deletion of a cluster is issued only for the cluster the run was
    started for, and exactly when that cluster exists and its stack, if one
    was found, was reported deleted before the timer fired: no failure of a
    discovery or of a mutation step prevents it, and a stack that fails to
    go or goes too late always does. *)
Theorem cluster_is_deleted_iff_the_run_gets_there :
  forall (w : World) (lts : list LaunchType) (cluster : string)
         (options : Options) (c : string),
    In (DeleteCluster c)
       (calls (fst (ClusterCleanup.deleteHelper w lts cluster options)))
    <-> c = cluster /\ reaches_cluster_deletion w cluster = true.
Proof.
  intros w lts cluster options c. unfold reaches_cluster_deletion.
  destruct (snd (ClusterCleanup.doesClusterExist w cluster)) eqn:Hex.
  - assert (Hm : In (DeleteCluster c)
                   (calls (fst (ClusterCleanup.deleteHelper w lts cluster
                                  options)))
                 <-> In (DeleteCluster c)
                       (mutations (fst (ClusterCleanup.deleteHelper w lts
                                          cluster options)))).
    { unfold mutations. rewrite filter_In. cbn [is_mutation]. tauto. }
    rewrite Hm, (deleteHelper_mutations w lts cluster options Hex).
    rewrite !in_app_iff, !in_map_iff. cbn [andb].
    split.
    + intros [[x [E _]]|[[x [E _]]|[[x [E _]]|[[x [E _]]|H]]]];
        try discriminate E.
      destruct (snd (ClusterCleanup.describeStack w cluster)) as [s|].
      * destruct H as [E|H]; [discriminate E|].
        destruct (wait_fulfilled_in_time w s); [|destruct H].
        destruct H as [E|[]]. injection E as <-. auto.
      * destruct H as [E|[]]. injection E as <-. auto.
    + intros [-> H]. do 4 right.
      destruct (snd (ClusterCleanup.describeStack w cluster)) as [s|].
      * rewrite H. right. now left.
      * now left.
  - rewrite (deleteHelper_calls_absent w lts cluster options Hex).
    cbn [In andb]. split.
    + intros [E|[]]. discriminate E.
    + intros [_ E]. discriminate E.
Qed.

(** ** How often a kind of event occurs *)

Lemma occ_nil (k : ClusterCleanupEvents) : occ k [] = 0.
Proof. reflexivity. Qed.

Lemma occ_cons (k k' : ClusterCleanupEvents) (p : payload)
  (evs : list (ClusterCleanupEvents * payload)) :
  occ k ((k', p) :: evs) = (if kind_eqb k k' then 1 else 0) + occ k evs.
Proof. unfold occ. cbn [filter fst]. now destruct (kind_eqb k k'). Qed.

Lemma occ_app (k : ClusterCleanupEvents)
  (e1 e2 : list (ClusterCleanupEvents * payload)) :
  occ k (e1 ++ e2) = occ k e1 + occ k e2.
Proof. unfold occ. now rewrite filter_app, length_app. Qed.

Lemma occ_error_if {A} (k : ClusterCleanupEvents) (r : Error + A) :
  frame_kind k = true -> occ k (events (error_if r)) = 0.
Proof. intros H. destruct r; [|reflexivity]. now destruct k. Qed.

Lemma occ_if_list (k : ClusterCleanupEvents) (b : bool)
  (evs : list (ClusterCleanupEvents * payload)) :
  occ k evs = 0 -> occ k (if b then evs else []) = 0.
Proof. now destruct b. Qed.

Lemma occ_reports (k : ClusterCleanupEvents) (es : list StackEvent) :
  frame_kind k = true ->
  occ k (events (map (fun e => Emit resourceDeleted (PStackEvent e)) es)) = 0.
Proof.
  intros H. induction es as [|e es IH]; [reflexivity|].
  cbn [map]. rewrite events_Emit, occ_cons, IH. now destruct k.
Qed.

Section Occurrences.

Variable w : World.
Variable lts : list LaunchType.
Variable cluster : string.
Variable options : Options.
Variable k : ClusterCleanupEvents.
Hypothesis frame : frame_kind k = true.

Lemma occ_polling (n i : nat) (alreadyDeleted : list string) :
  occ k (events (fst (ClusterCleanup.setupCloudFormationPolling w cluster n i
                        alreadyDeleted))) = 0.
Proof.
  revert i alreadyDeleted. induction n as [|n IH]; intros i ad;
    [reflexivity|].
  cbn [ClusterCleanup.setupCloudFormationPolling]. unfold bind.
  cbn [fst snd]. rewrite events_app, occ_app, IH, pollEvent_shape,
    describeStackEvents_shape.
  cbn [fst snd]. log_simpl. rewrite occ_app, (occ_error_if _ _ frame).
  now rewrite (occ_reports _ _ frame).
Qed.

Lemma occ_before_the_stack_block :
  occ k (events (fst (teardown w lts cluster options)))
  = occ k (events (fst (stack_block w cluster options
                          (snd (ClusterCleanup.describeStack w cluster))))).
Proof.
  rewrite teardown_events, !occ_app.
  rewrite services_block_events, tasks_block_events, instances_block_events,
    delete_block_events.
  rewrite describeStack_shape, getAllServicesFor_shape, getAllTasksFor_shape,
    getAllInstancesFor_shape.
  cbn [fst snd]. log_simpl.
  rewrite !(occ_error_if _ _ frame).
  assert (Hs : forall st : option Stack,
             occ k match st with
                   | Some s => [(stackFound, PStack s)]
                   | None => []
                   end = 0).
  { intros [s|]; [|reflexivity]. now destruct k. }
  rewrite Hs.
  rewrite !occ_if_list; [reflexivity| | | |];
    rewrite ?occ_cons, ?occ_app, ?occ_cons, ?(occ_error_if _ _ frame);
    destruct k; try discriminate frame; reflexivity.
Qed.

End Occurrences.

Section FrameOccurrences.

Variable w : World.
Variable lts : list LaunchType.
Variable cluster : string.
Variable options : Options.
Variable k : ClusterCleanupEvents.
Hypothesis frame : frame_kind k = true.

Lemma occ_finish :
  occ k (events (fst (finish w cluster options)))
  = match ecs_deleteCluster w cluster with
    | inl _ => if kind_eqb k doneWithError then 1 else 0
    | inr _ => 0
    end
    + (if kind_eqb k clusterDeleted then 1 else 0)
    + (if kind_eqb k done then 1 else 0).
Proof.
  rewrite finish_events.
  destruct (ecs_deleteCluster w cluster);
    rewrite occ_app, !occ_cons, occ_nil; cbn [app]; lia.
Qed.

Lemma occ_stack_block (stack : option Stack) :
  occ k (events (fst (stack_block w cluster options stack)))
  = match stack with
    | None => occ k (events (fst (finish w cluster options)))
    | Some s =>
        (if kind_eqb k stackDeletionStarted then 1 else 0)
        + if wait_fulfilled_in_time w s
          then (if kind_eqb k stackDeletionDone then 1 else 0)
               + occ k (events (fst (finish w cluster options)))
          else if kind_eqb k doneWithError then 1 else 0
    end.
Proof.
  destruct stack as [s|]; [|reflexivity].
  rewrite stack_block_events, poll_settled, poll_afterwards,
    poll_while_pending, deleteStack_log.
  unfold wait_fulfilled_in_time. cbn [fst]. log_simpl.
  rewrite occ_app, (occ_error_if _ _ frame), occ_cons, !occ_app,
    (occ_polling w cluster k frame).
  destruct (_ <? _)%N; cbn [andb].
  - destruct (snd (cfn_waitFor_stackDeleteComplete w (StackId s))).
    + rewrite (occ_polling w cluster k frame), occ_cons, occ_nil. lia.
    + rewrite occ_cons, occ_nil. lia.
  - rewrite occ_cons, !occ_nil. lia.
Qed.

Lemma occ_deleteHelper :
  occurrences k (fst (ClusterCleanup.deleteHelper w lts cluster options))
  = (if kind_eqb k start then 1 else 0)
    + if snd (ClusterCleanup.doesClusterExist w cluster)
      then occ k (events (fst (stack_block w cluster options
                                 (snd (ClusterCleanup.describeStack w
                                         cluster)))))
      else if kind_eqb k doneWithError then 1 else 0.
Proof.
  unfold occurrences.
  destruct (snd (ClusterCleanup.doesClusterExist w cluster)) eqn:Hex.
  - rewrite (deleteHelper_events_present w lts cluster options Hex).
    rewrite occ_cons, occ_app, (occ_before_the_stack_block w lts cluster
                                  options k frame).
    rewrite doesClusterExist_shape. cbn [fst]. log_simpl.
    now rewrite (occ_error_if _ _ frame).
  - rewrite (deleteHelper_absent w lts cluster options Hex),
      doesClusterExist_shape.
    cbn [fst]. log_simpl.
    rewrite occ_cons, occ_app, (occ_error_if _ _ frame), occ_cons, occ_nil.
    lia.
Qed.

End FrameOccurrences.

(** Every run emits [start] exactly once.  [clusterDeleted] and [done] are
    each emitted exactly once when the cluster exists and its stack, if one
    was found, went in time, and never otherwise; the stack events
    [stackDeletionStarted] and [stackDeletionDone] are emitted at most
    once. *)
Theorem done_is_emitted_once_iff_the_run_gets_there :
  forall (w : World) (lts : list LaunchType) (cluster : string)
         (options : Options),
    let log := fst (ClusterCleanup.deleteHelper w lts cluster options) in
    occurrences start log = 1
    /\ occurrences done log
       = (if reaches_cluster_deletion w cluster then 1 else 0)
    /\ occurrences clusterDeleted log
       = (if reaches_cluster_deletion w cluster then 1 else 0)
    /\ occurrences stackDeletionStarted log <= 1
    /\ occurrences stackDeletionDone log <= occurrences stackDeletionStarted log.
Proof.
  intros w lts cluster options. cbv zeta. unfold reaches_cluster_deletion.
  rewrite !occ_deleteHelper by reflexivity.
  rewrite !occ_stack_block by reflexivity.
  rewrite !occ_finish by reflexivity. cbn [kind_eqb].
  destruct (snd (ClusterCleanup.doesClusterExist w cluster)); cbn [andb].
  - destruct (snd (ClusterCleanup.describeStack w cluster)) as [s|].
    + destruct (wait_fulfilled_in_time w s),
        (ecs_deleteCluster w cluster); cbn; repeat split; lia.
    + destruct (ecs_deleteCluster w cluster); cbn; repeat split; lia.
  - cbn. repeat split; lia.
Qed.

(** The terminal failure event is emitted at most once: once when the run
    does not get to the deletion of the cluster (the cluster is not there,
    or its stack did not go in time) or when that deletion is refused, and
    not at all otherwise.  So every run emits at least one of the two
    terminal events. *)
Theorem doneWithError_is_emitted_at_most_once :
  forall (w : World) (lts : list LaunchType) (cluster : string)
         (options : Options),
    let log := fst (ClusterCleanup.deleteHelper w lts cluster options) in
    occurrences doneWithError log
    = (if reaches_cluster_deletion w cluster
       then match ecs_deleteCluster w cluster with
            | inl _ => 1
            | inr _ => 0
            end
       else 1)
    /\ 1 <= occurrences done log + occurrences doneWithError log.
Proof.
  intros w lts cluster options. cbv zeta. unfold reaches_cluster_deletion.
  rewrite !occ_deleteHelper by reflexivity.
  rewrite !occ_stack_block by reflexivity.
  rewrite !occ_finish by reflexivity. cbn [kind_eqb].
  destruct (snd (ClusterCleanup.doesClusterExist w cluster)); cbn [andb].
  - destruct (snd (ClusterCleanup.describeStack w cluster)) as [s|].
    + destruct (wait_fulfilled_in_time w s),
        (ecs_deleteCluster w cluster); cbn; split; lia.
    + destruct (ecs_deleteCluster w cluster); cbn; split; lia.
  - cbn. split; lia.
Qed.

(** ** The stack branch *)

Lemma ends_here {A} (y : A) : exists l, [y] = l ++ [y].
Proof. now exists []. Qed.

Lemma ends_cons {A} (x y : A) (l : list A) :
  (exists l', l = l' ++ [y]) -> exists l', x :: l = l' ++ [y].
Proof. intros [l' ->]. now exists (x :: l'). Qed.

Lemma ends_app {A} (y : A) (a l : list A) :
  (exists l', l = l' ++ [y]) -> exists l', a ++ l = l' ++ [y].
Proof. intros [l' ->]. exists (a ++ l'). now rewrite app_assoc. Qed.

Lemma mid_here {A} (a b : A) (l : list A) :
  exists l1 l2, a :: b :: l = l1 ++ a :: b :: l2.
Proof. now exists [], l. Qed.

Lemma mid_cons {A} (x a b : A) (l : list A) :
  (exists l1 l2, l = l1 ++ a :: b :: l2) ->
  exists l1 l2, x :: l = l1 ++ a :: b :: l2.
Proof. intros [l1 [l2 ->]]. now exists (x :: l1), l2. Qed.

Lemma mid_app {A} (a b : A) (p l : list A) :
  (exists l1 l2, l = l1 ++ a :: b :: l2) ->
  exists l1 l2, p ++ l = l1 ++ a :: b :: l2.
Proof. intros [l1 [l2 ->]]. exists (p ++ l1), l2. now rewrite app_assoc. Qed.

Lemma in_calls_here (r : request) (l : list effect) :
  In r (calls (Call r :: l)).
Proof. now left. Qed.

Lemma in_calls_cons (r : request) (x : effect) (l : list effect) :
  In r (calls l) -> In r (calls (x :: l)).
Proof.
  intros H. change (x :: l) with ([x] ++ l). rewrite calls_app.
  apply in_or_app. now right.
Qed.

Lemma in_calls_app (r : request) (p l : list effect) :
  In r (calls l) -> In r (calls (p ++ l)).
Proof. intros H. rewrite calls_app. apply in_or_app. now right. Qed.

Ltac ends_with :=
  repeat first [apply ends_here | apply ends_cons | apply ends_app].

(** When the wait for the deletion of the stack has not settled once ten
    minutes are over, whatever it does later, the last event of the run is
    [doneWithError] with the time-out error: the periodic check has been
    stopped and nothing follows. *)
Theorem timed_out_wait_ends_the_run :
  forall (w : World) (lts : list LaunchType) (cluster : string)
         (options : Options) (s : Stack),
    snd (ClusterCleanup.doesClusterExist w cluster) = true ->
    snd (ClusterCleanup.describeStack w cluster) = Some s ->
    (TEN_MINUTES <= fst (cfn_waitFor_stackDeleteComplete w (StackId s)))%N ->
    TEN_MINUTES = 600000%N
    /\ exists l,
        events (fst (ClusterCleanup.deleteHelper w lts cluster options))
        = l ++ [(doneWithError,
                 PError (new_Error "CloudFormation stack deletion timed out!"))].
Proof.
  intros w lts cluster options s Hex Hs Ht. split; [reflexivity|].
  rewrite (deleteHelper_events_present w lts cluster options Hex),
    teardown_events, Hs.
  rewrite stack_block_events, poll_settled, poll_afterwards.
  apply N.ltb_ge in Ht. rewrite Ht. cbn [events flat_map].
  rewrite app_nil_r. ends_with.
Qed.

Lemma timed_out_wait_ends_the_run_witness :
  exists l,
    events (fst (ClusterCleanup.deleteHelper
                   (demo_world ["web"] None (inr [demo_stack])
                      (3600000%N, inl (new_Error "ResourceNotReady"))
                      (fun _ => inr [deleted "EcsInstanceAsg"])
                      (inr (mkCluster "demo" "INACTIVE")))
                   [EC2] "demo" (mkOptions None)))
    = l ++ [(doneWithError,
             PError (new_Error "CloudFormation stack deletion timed out!"))].
Proof.
  refine (proj2 (timed_out_wait_ends_the_run
                   (demo_world ["web"] None (inr [demo_stack])
                      (3600000%N, inl (new_Error "ResourceNotReady"))
                      (fun _ => inr [deleted "EcsInstanceAsg"])
                      (inr (mkCluster "demo" "INACTIVE")))
                   [EC2] "demo" (mkOptions None) demo_stack _ _ _)).
  - reflexivity.
  - reflexivity.
  - vm_compute. discriminate.
Defined.

(** A refused request to delete the stack does not stop the stack branch:
    its error is reported, [stackDeletionStarted] follows at once with the
    identifier of the stack, and the wait for the deletion is started all
    the same, addressed by that identifier. *)
Theorem refused_stack_deletion_is_announced_as_started :
  forall (w : World) (lts : list LaunchType) (cluster : string)
         (options : Options) (s : Stack) (e : Error),
    snd (ClusterCleanup.doesClusterExist w cluster) = true ->
    snd (ClusterCleanup.describeStack w cluster) = Some s ->
    cfn_deleteStack w (stack_name cluster) = inl e ->
    (exists l1 l2,
        events (fst (ClusterCleanup.deleteHelper w lts cluster options))
        = l1 ++ (error, PError e)
             :: (stackDeletionStarted, PString (StackId s)) :: l2)
    /\ In (WaitForStackDeleteComplete (StackId s))
          (calls (fst (ClusterCleanup.deleteHelper w lts cluster options))).
Proof.
  intros w lts cluster options s e Hex Hs He. split.
  - rewrite (deleteHelper_events_present w lts cluster options Hex),
      teardown_events, Hs.
    rewrite stack_block_events, deleteStack_log, He.
    cbn [error_if]. log_simpl.
    repeat first [apply mid_here | apply mid_cons | apply mid_app].
  - rewrite (deleteHelper_present w lts cluster options Hex), teardown_log, Hs.
    rewrite stack_block_log.
    repeat first [apply in_calls_here | apply in_calls_cons
                 | apply in_calls_app].
Qed.

Lemma refused_stack_deletion_is_announced_as_started_witness :
  In (WaitForStackDeleteComplete (StackId demo_stack))
     (calls (fst (ClusterCleanup.deleteHelper
                    (mkWorld (fun _ => inr [mkCluster "demo" "ACTIVE"])
                       (fun _ _ => inr [])
                       (fun _ s _ => inr (mkService s s))
                       (fun _ => inr [])
                       (fun t _ _ => inr (mkTask t))
                       (fun _ => inr [])
                       (fun _ i _ => inr (mkContainerInstance i))
                       (fun _ s => inr (mkService s s))
                       (fun _ => inr (mkCluster "demo" "INACTIVE"))
                       (fun _ => inr [demo_stack])
                       (fun _ => inl (new_Error "AccessDenied"))
                       (fun _ _ => inr [])
                       (fun _ _ => inr [])
                       (fun _ => (5000%N, inr [])))
                    [EC2] "demo" (mkOptions None)))).
Proof.
  refine (proj2 (refused_stack_deletion_is_announced_as_started _ [EC2] "demo"
                   (mkOptions None) demo_stack (new_Error "AccessDenied")
                   _ _ _)); reflexivity.
Defined.

(** ** What the periodic check remembers *)

Lemma includes_In (l : list string) (x : string) :
  ClusterCleanup.includes l x = true <-> In x l.
Proof.
  unfold ClusterCleanup.includes. rewrite existsb_exists. split.
  - intros [y [Hy E]]. apply String.eqb_eq in E. now subst.
  - intros H. exists x. split; [exact H|apply String.eqb_refl].
Qed.

Lemma reported_ids_events (l : list effect) :
  reported_ids l = map LogicalResourceId (reported_events l).
Proof.
  induction l as [|x l IH]; [reflexivity|].
  change (x :: l) with ([x] ++ l).
  unfold reported_events. rewrite reported_ids_app, flat_map_app, map_app.
  fold (reported_events l). rewrite <- IH. f_equal.
  destruct x as [k p| | |]; try reflexivity.
  destruct k; try reflexivity. destruct p; reflexivity.
Qed.

Lemma reported_events_reports (es : list StackEvent) :
  reported_events (map (fun e => Emit resourceDeleted (PStackEvent e)) es) = es.
Proof. induction es as [|e es IH]; [reflexivity|]. cbn. now f_equal. Qed.

Lemma reported_events_app (l1 l2 : list effect) :
  reported_events (l1 ++ l2) = reported_events l1 ++ reported_events l2.
Proof. apply flat_map_app. Qed.

Lemma pollEvent_reports (w : World) (cluster : string) (k : nat)
  (alreadyDeleted : list string) :
  reported_events (fst (ClusterCleanup.pollEvent w k cluster alreadyDeleted))
  = filter (fun e => negb (ClusterCleanup.includes alreadyDeleted
                             (LogicalResourceId e)))
      (filter (fun e => (ResourceStatus e =? "DELETE_COMPLETE")%string)
         (value_or (cfn_describeStackEvents w k (stack_name cluster)))).
Proof.
  rewrite pollEvent_shape, describeStackEvents_shape. cbn [fst snd].
  rewrite reported_events_app.
  change (Await :: ?l) with ([Await] ++ l).
  rewrite reported_events_app, reported_events_reports.
  now destruct (cfn_describeStackEvents w k (stack_name cluster)).
Qed.

(** Whatever the histories are, the array [alreadyDeleted] of the periodic
    check holds, after any number of checks, what it held before followed by
    the identifiers reported since, in the order they were reported; every
    event reported is in the delete-complete state, and no identifier that
    the array held before the checks is reported by them. *)
Theorem periodic_check_remembers_what_it_reports :
  forall (w : World) (cluster : string) (n k : nat)
         (alreadyDeleted : list string),
    let run := ClusterCleanup.setupCloudFormationPolling w cluster n k
                 alreadyDeleted in
    snd run = alreadyDeleted ++ reported_ids (fst run)
    /\ Forall (fun e => ResourceStatus e = "DELETE_COMPLETE")
         (reported_events (fst run))
    /\ (forall id, In id (reported_ids (fst run)) -> ~ In id alreadyDeleted).
Proof.
  intros w cluster n. cbv zeta.
  induction n as [|n IH]; intros k ad.
  - cbn. rewrite app_nil_r. split; [reflexivity|]. split; [constructor|].
    intros id [].
  - cbn [ClusterCleanup.setupCloudFormationPolling]. unfold bind.
    cbn [fst snd].
    destruct (IH (S k) (snd (ClusterCleanup.pollEvent w k cluster ad)))
      as [Hv [Hs Hn]].
    rewrite reported_ids_app, reported_events_app, Hv.
    assert (Hp : snd (ClusterCleanup.pollEvent w k cluster ad)
                 = ad ++ reported_ids
                           (fst (ClusterCleanup.pollEvent w k cluster ad))).
    { rewrite reported_ids_events, pollEvent_reports, pollEvent_shape.
      cbn [snd]. now rewrite describeStackEvents_shape. }
    repeat split.
    + rewrite Hp at 1. now rewrite <- app_assoc.
    + apply Forall_app. split; [|exact Hs].
      rewrite pollEvent_reports. apply Forall_forall. intros e He.
      apply filter_In in He. destruct He as [He _].
      apply filter_In in He. destruct He as [_ He].
      now apply String.eqb_eq.
    + intros id Hid Had. apply in_app_or in Hid. destruct Hid as [Hid|Hid].
      * rewrite reported_ids_events, pollEvent_reports in Hid.
        apply in_map_iff in Hid. destruct Hid as [e [<- He]].
        apply filter_In in He. destruct He as [_ He].
        apply negb_true_iff in He.
        apply includes_In in Had. congruence.
      * apply (Hn id Hid). rewrite Hp. apply in_or_app. now left.
Qed.

Lemma distinct_ids_survive_a_filter (keep : StackEvent -> bool)
  (es : list StackEvent) :
  NoDup (map LogicalResourceId es) ->
  NoDup (map LogicalResourceId (filter keep es)).
Proof.
  intros H. induction es as [|e es IH]; [constructor|].
  cbn [map] in H. inversion H as [|? ? Hnot Hrest]; subst.
  cbn [filter]. destruct (keep e); [|now apply IH].
  cbn [map]. constructor; [|now apply IH].
  intros Hin. apply Hnot. apply in_map_iff in Hin.
  destruct Hin as [x [E Hx]]. apply filter_In in Hx.
  apply in_map_iff. exists x. tauto.
Qed.

Lemma NoDup_app_disjoint {A} (l1 l2 : list A) :
  NoDup l1 -> NoDup l2 -> (forall x, In x l2 -> ~ In x l1) -> NoDup (l1 ++ l2).
Proof.
  induction l1 as [|a l1 IH]; intros H1 H2 Hd; [exact H2|].
  inversion H1 as [|? ? Hnot Hrest]; subst. cbn [app]. constructor.
  - intros Hin. apply in_app_or in Hin. destruct Hin as [Hin|Hin]; [tauto|].
    apply (Hd a Hin). now left.
  - apply IH; auto. intros x Hx Hin. apply (Hd x Hx). now right.
Qed.

(** When no single history shows the same logical resource twice as
    deleted, no identifier is reported twice, however many checks run and
    however often successive histories show the same resources: the
    identifiers remembered and reported stay pairwise distinct. *)
Theorem successive_checks_report_each_resource_once :
  forall (w : World) (cluster : string) (n k : nat)
         (alreadyDeleted : list string),
    NoDup alreadyDeleted ->
    (forall i, NoDup (complete_ids
                        (cfn_describeStackEvents w i (stack_name cluster)))) ->
    NoDup (alreadyDeleted
           ++ reported_ids
                (fst (ClusterCleanup.setupCloudFormationPolling w cluster n k
                        alreadyDeleted))).
Proof.
  intros w cluster n. induction n as [|n IH]; intros k ad Had Hh.
  - cbn. now rewrite app_nil_r.
  - cbn [ClusterCleanup.setupCloudFormationPolling]. unfold bind.
    cbn [fst snd]. rewrite reported_ids_app, app_assoc.
    assert (Hp : snd (ClusterCleanup.pollEvent w k cluster ad)
                 = ad ++ reported_ids
                           (fst (ClusterCleanup.pollEvent w k cluster ad))).
    { rewrite reported_ids_events, pollEvent_reports, pollEvent_shape.
      cbn [snd]. now rewrite describeStackEvents_shape. }
    rewrite <- Hp. apply IH; [|exact Hh].
    rewrite Hp. apply NoDup_app_disjoint; [exact Had| |].
    + rewrite reported_ids_events, pollEvent_reports.
      apply distinct_ids_survive_a_filter. apply (Hh k).
    + intros id Hid Hin. rewrite reported_ids_events, pollEvent_reports in Hid.
      apply in_map_iff in Hid. destruct Hid as [e [<- He]].
      apply filter_In in He. destruct He as [_ He].
      apply negb_true_iff in He. apply includes_In in Hin. congruence.
Qed.

Lemma successive_checks_report_each_resource_once_witness :
  NoDup ([] ++ reported_ids
                 (fst (ClusterCleanup.setupCloudFormationPolling
                         (demo_world [] None (inr [demo_stack])
                            (45000%N, inr [])
                            (fun i => if i <? 3
                                      then inr [deleted "EcsSecurityGroup"]
                                      else inr [deleted "EcsSecurityGroup";
                                                deleted "EcsInstanceAsg"])
                            (inr (mkCluster "demo" "INACTIVE")))
                         "demo" 4 1 []))).
Proof.
  refine (successive_checks_report_each_resource_once _ "demo" 4 1 [] _ _).
  - constructor.
  - intros i. unfold complete_ids. cbn [demo_world cfn_describeStackEvents].
    destruct (i <? 3); cbn; repeat constructor; cbn; intuition discriminate.
Defined.

(** ** Mutation steps in general *)

Lemma successes_length {A R} (reply : A -> Error + R) (xs : list A) :
  (forall x, In x xs -> rejection (reply x) = None) ->
  List.length (successes (map reply xs)) = List.length xs.
Proof.
  induction xs as [|x xs IH]; intros H; [reflexivity|].
  cbn [map]. unfold successes. cbn [flat_map].
  fold (successes (map reply xs)).
  pose proof (H x (or_introl eq_refl)) as Hx.
  destruct (reply x); [discriminate Hx|].
  cbn [app List.length]. f_equal. apply IH. intros y Hy. apply H. now right.
Qed.

Lemma Promise_all_map_rejects {A R} (reply : A -> Error + R) (xs : list A) :
  (exists x, In x xs /\ rejection (reply x) <> None) ->
  exists e x, Promise_all (map reply xs) = inl e
              /\ In x xs /\ rejection (reply x) = Some e.
Proof.
  intros [x [Hx Hr]].
  destruct (Promise_all_rejects (map reply xs)) as [e [He Hin]].
  { exists (reply x). split; [now apply in_map|exact Hr]. }
  apply in_map_iff in Hin. destruct Hin as [y [Hy Hiny]].
  exists e, y. rewrite Hy. auto.
Qed.

(** A mutation step whose calls all succeed issues one call per resource,
    in the order of the resources, emits nothing, and yields one result per
    resource in that same order. *)
Theorem step_without_refusal_keeps_every_result :
  forall (w : World) (step : MutationStep) (cluster : string)
         (xs : list string),
    (forall x, In x xs -> step_failure w step cluster x = None) ->
    run_step w step cluster xs
    = (map (fun x => Call (step_request step cluster x)) xs ++ [Await],
       step_successes w step cluster xs)
    /\ payload_size (step_successes w step cluster xs) = List.length xs.
Proof.
  intros w step cluster xs H.
  destruct step; unfold run_step, bind;
    cbn [step_failure step_request step_successes payload_size] in *.
  - rewrite scaleServicesToZero_shape, Promise_all_map_successes by exact H.
    cbn [fst snd ret error_if value_or]. rewrite app_nil_r.
    split; [reflexivity|]. now apply successes_length.
  - rewrite stopTasks_shape, Promise_all_map_successes by exact H.
    cbn [fst snd ret error_if value_or]. rewrite app_nil_r.
    split; [reflexivity|]. now apply successes_length.
  - rewrite deregisterContainerInstances_shape,
      Promise_all_map_successes by exact H.
    cbn [fst snd ret error_if value_or]. rewrite app_nil_r.
    split; [reflexivity|]. now apply successes_length.
  - rewrite deleteAllServices_shape, Promise_all_map_successes by exact H.
    cbn [fst snd ret error_if value_or]. rewrite app_nil_r.
    split; [reflexivity|]. now apply successes_length.
Qed.

Lemma step_without_refusal_keeps_every_result_witness :
  payload_size
    (step_successes
       (demo_world ["web"; "api"] None no_stack (0%N, inr [])
          (fun _ => inr []) (inr (mkCluster "demo" "INACTIVE")))
       StopTasks "demo" ["task-1"; "task-2"; "task-3"])
  = 3.
Proof.
  refine (proj2 (step_without_refusal_keeps_every_result _ StopTasks "demo"
                   ["task-1"; "task-2"; "task-3"] _)).
  intros x _. reflexivity.
Defined.

(** A mutation step in which any call is refused, however many, still
    issues every call, emits exactly one error event, carrying the error of
    one of the refused calls, and yields the empty list. *)
Theorem step_with_any_refusal_yields_nothing :
  forall (w : World) (step : MutationStep) (cluster : string)
         (xs : list string),
    (exists x, In x xs /\ step_failure w step cluster x <> None) ->
    exists e x,
      In x xs /\ step_failure w step cluster x = Some e
      /\ run_step w step cluster xs
         = (map (fun y => Call (step_request step cluster y)) xs
              ++ [Await; Emit error (PError e)],
            empty_payload step).
Proof.
  intros w step cluster xs H.
  destruct step; unfold run_step, bind;
    cbn [step_failure step_request empty_payload] in *.
  - destruct (Promise_all_map_rejects _ xs H) as [e [x [He [Hx Hr]]]].
    exists e, x. rewrite scaleServicesToZero_shape, He.
    cbn [fst snd ret error_if value_or]. now rewrite app_nil_r.
  - destruct (Promise_all_map_rejects _ xs H) as [e [x [He [Hx Hr]]]].
    exists e, x. rewrite stopTasks_shape, He.
    cbn [fst snd ret error_if value_or]. now rewrite app_nil_r.
  - destruct (Promise_all_map_rejects _ xs H) as [e [x [He [Hx Hr]]]].
    exists e, x. rewrite deregisterContainerInstances_shape, He.
    cbn [fst snd ret error_if value_or]. now rewrite app_nil_r.
  - destruct (Promise_all_map_rejects _ xs H) as [e [x [He [Hx Hr]]]].
    exists e, x. rewrite deleteAllServices_shape, He.
    cbn [fst snd ret error_if value_or]. now rewrite app_nil_r.
Qed.

Lemma step_with_any_refusal_yields_nothing_witness :
  exists e x,
    In x ["web"; "api"; "web"]
    /\ step_failure
         (demo_world [] (Some "web") no_stack (0%N, inr [])
            (fun _ => inr []) (inr (mkCluster "demo" "INACTIVE")))
         ScaleServices "demo" x = Some e
    /\ run_step
         (demo_world [] (Some "web") no_stack (0%N, inr [])
            (fun _ => inr []) (inr (mkCluster "demo" "INACTIVE")))
         ScaleServices "demo" ["web"; "api"; "web"]
       = (map (fun y => Call (step_request ScaleServices "demo" y))
            ["web"; "api"; "web"]
            ++ [Await; Emit error (PError e)],
          empty_payload ScaleServices).
Proof.
  refine (step_with_any_refusal_yields_nothing _ ScaleServices "demo"
            ["web"; "api"; "web"] _).
  exists "web". split; [now left|]. cbn. discriminate.
Defined.

(** ** Services through the pipeline *)

Lemma in_here {A} (x : A) (l : list A) : In x (x :: l).
Proof. now left. Qed.

Lemma in_skip {A} (x y : A) (l : list A) : In x l -> In x (y :: l).
Proof. now right. Qed.

Lemma in_right {A} (x : A) (p l : list A) : In x l -> In x (p ++ l).
Proof. intros H. apply in_or_app. now right. Qed.

Ltac find_in := repeat first [apply in_here | apply in_skip | apply in_right].

(** When the scale-down of any service found is refused, the run deletes
    no service at all, neither those whose scale-down succeeded nor the
    others, and still emits [servicesDeleted], with the empty list. *)
Theorem refused_scale_down_leaves_every_service :
  forall (w : World) (lts : list LaunchType) (cluster : string)
         (options : Options),
    snd (ClusterCleanup.doesClusterExist w cluster) = true ->
    (exists x, In x (snd (ClusterCleanup.getAllServicesFor w lts cluster))
               /\ step_failure w ScaleServices cluster x <> None) ->
    (forall c s,
        ~ In (DeleteService c s)
             (calls (fst (ClusterCleanup.deleteHelper w lts cluster options))))
    /\ In (servicesDeleted, PServices [])
          (events (fst (ClusterCleanup.deleteHelper w lts cluster options))).
Proof.
  intros w lts cluster options Hex Hfail.
  destruct (Promise_all_map_rejects _ _ Hfail) as [e [x [He [Hx _]]]].
  assert (Hpos : (0 <? List.length
                          (snd (ClusterCleanup.getAllServicesFor w lts
                                  cluster))) = true).
  { destruct (snd (ClusterCleanup.getAllServicesFor w lts cluster));
      [destruct Hx|reflexivity]. }
  assert (Hval : snd (services_block w cluster
                        (snd (ClusterCleanup.getAllServicesFor w lts cluster)))
                 = []).
  { rewrite services_block_value, Hpos, scaleServicesToZero_shape.
    cbn [snd]. now rewrite He. }
  split.
  - intros c s Hin.
    assert (Hm : In (DeleteService c s)
                   (mutations (fst (ClusterCleanup.deleteHelper w lts cluster
                                      options)))).
    { unfold mutations. apply filter_In. now split. }
    rewrite (deleteHelper_mutations w lts cluster options Hex), Hval in Hm.
    rewrite !in_app_iff, !in_map_iff in Hm.
    destruct Hm as [[y [E _]]|[[y [E _]]|[[y [E _]]|[[y [_ []]]|H]]]];
      try discriminate E.
    destruct (snd (ClusterCleanup.describeStack w cluster)) as [st|].
    + destruct H as [E|H]; [discriminate E|].
      destruct (wait_fulfilled_in_time w st); [|destruct H].
      destruct H as [E|[]]. discriminate E.
    + destruct H as [E|[]]. discriminate E.
  - rewrite (deleteHelper_events_present w lts cluster options Hex),
      teardown_events.
    rewrite delete_block_events, Hpos, Hval. cbn [map Promise_all error_if].
    log_simpl. find_in.
Qed.

Lemma refused_scale_down_leaves_every_service_witness :
  In (servicesDeleted, PServices [])
     (events (fst (ClusterCleanup.deleteHelper
                     (demo_world ["web"; "api"] (Some "api") no_stack
                        (0%N, inr []) (fun _ => inr [])
                        (inr (mkCluster "demo" "INACTIVE")))
                     [EC2] "demo" (mkOptions None)))).
Proof.
  refine (proj2 (refused_scale_down_leaves_every_service
                   (demo_world ["web"; "api"] (Some "api") no_stack
                      (0%N, inr []) (fun _ => inr [])
                      (inr (mkCluster "demo" "INACTIVE")))
                   [EC2] "demo" (mkOptions None) _ _)).
  - reflexivity.
  - exists "api". split; [cbn; auto|]. cbn. discriminate.
Defined.

(** When the listing of services is rejected for any enabled scope, every
    scope has still been queried, the discovery yields no service, even
    those another scope listed, and reports one error; the run then scales
    and deletes no service. *)
Theorem rejected_scope_hides_every_service :
  forall (w : World) (lts : list LaunchType) (cluster : string)
         (options : Options),
    snd (ClusterCleanup.doesClusterExist w cluster) = true ->
    (exists l, In l lts /\ rejection (ecs_listServices w cluster l) <> None) ->
    snd (ClusterCleanup.getAllServicesFor w lts cluster) = []
    /\ calls (fst (ClusterCleanup.getAllServicesFor w lts cluster))
       = map (ListServices cluster) lts
    /\ (exists e l,
           In l lts /\ ecs_listServices w cluster l = inl e
           /\ events (fst (ClusterCleanup.getAllServicesFor w lts cluster))
              = [(error, PError e)])
    /\ forall r,
        In r (calls (fst (ClusterCleanup.deleteHelper w lts cluster options)))
        -> match r with
           | UpdateService _ _ _ | DeleteService _ _ => False
           | _ => True
           end.
Proof.
  intros w lts cluster options Hex Hfail.
  destruct (Promise_all_map_rejects _ _ Hfail) as [e [l [He [Hl Hr]]]].
  assert (Hval : snd (ClusterCleanup.getAllServicesFor w lts cluster) = []).
  { rewrite getAllServicesFor_shape. cbn [snd]. now rewrite He. }
  split; [exact Hval|]. split; [apply getAllServicesFor_log|]. split.
  - exists e, l. split; [exact Hl|]. split.
    + unfold rejection in Hr. destruct (ecs_listServices w cluster l);
        [now injection Hr as ->|discriminate Hr].
    + rewrite getAllServicesFor_shape. cbn [fst]. rewrite He.
      cbn [error_if]. log_simpl. reflexivity.
  - intros r Hin.
    destruct r; try exact I;
      (assert (Hm : In ltac:(match type of Hin with In ?x _ => exact x end)
                      (mutations (fst (ClusterCleanup.deleteHelper w lts
                                         cluster options))))
        by (unfold mutations; apply filter_In; now split));
      rewrite (deleteHelper_mutations w lts cluster options Hex) in Hm;
      rewrite services_block_value, Hval in Hm; cbn [List.length Nat.ltb
        Nat.leb map app] in Hm;
      rewrite !in_app_iff, !in_map_iff in Hm;
      destruct Hm as [[y [E _]]|[[y [E _]]|H]];
      try discriminate E;
      (destruct (snd (ClusterCleanup.describeStack w cluster)) as [st|];
       [destruct H as [E|H]; [discriminate E|];
        destruct (wait_fulfilled_in_time w st); [|destruct H];
        destruct H as [E|[]]; discriminate E
       |destruct H as [E|[]]; discriminate E]).
Qed.

Lemma rejected_scope_hides_every_service_witness :
  snd (ClusterCleanup.getAllServicesFor
         (mkWorld (fun _ => inr [mkCluster "demo" "ACTIVE"])
            (fun _ l => match l with
                        | EC2 => inr ["web"; "api"]
                        | FARGATE => inl (new_Error "ThrottlingException")
                        end)
            (fun _ s _ => inr (mkService s s))
            (fun _ => inr [])
            (fun t _ _ => inr (mkTask t))
            (fun _ => inr [])
            (fun _ i _ => inr (mkContainerInstance i))
            (fun _ s => inr (mkService s s))
            (fun _ => inr (mkCluster "demo" "INACTIVE"))
            (fun _ => no_stack)
            (fun _ => inr tt)
            (fun _ _ => inr [])
            (fun _ _ => inr [])
            (fun _ => (0%N, inr [])))
         [EC2; FARGATE] "demo")
  = [].
Proof.
  refine (proj1 (rejected_scope_hides_every_service _ [EC2; FARGATE] "demo"
                   (mkOptions None) _ _)).
  - reflexivity.
  - exists FARGATE. split; [cbn; auto|]. cbn. discriminate.
Defined.

(** ** A cluster without a stack *)

(** For a cluster that exists and has no stack (the description of the
    stack is rejected, which is reported as an error, or lists none), when
    every other discovery and every mutation succeeds, the kinds of the
    events are [start], the pair of each resource kind found,
    [servicesDeleted] when services were found, [clusterDeleted], [done]:
    none of the three stack events is emitted. *)
Theorem run_without_stack_emits_the_sequence :
  forall (w : World) (lts : list LaunchType) (cluster : string)
         (options : Options),
    rejection (ecs_describeClusters w [cluster]) = None ->
    snd (ClusterCleanup.doesClusterExist w cluster) = true ->
    nth_error (value_or (cfn_describeStacks w (stack_name cluster))) 0 = None ->
    (forall l, rejection (ecs_listServices w cluster l) = None) ->
    rejection (ecs_listTasks w cluster) = None ->
    rejection (ecs_listContainerInstances w cluster) = None ->
    (forall step x, step_failure w step cluster x = None) ->
    rejection (ecs_deleteCluster w cluster) = None ->
    kinds (fst (ClusterCleanup.deleteHelper w lts cluster options))
    = no_stack_sequence
        (match cfn_describeStacks w (stack_name cluster) with
         | inl _ => true
         | inr _ => false
         end)
        (List.length (snd (ClusterCleanup.getAllServicesFor w lts cluster)))
        (List.length (snd (ClusterCleanup.getAllTasksFor w cluster)))
        (List.length (snd (ClusterCleanup.getAllInstancesFor w cluster))).
Proof.
  intros w lts cluster options Hdc Hex Hst Hls Hlt Hli Hmut Hdel.
  unfold kinds.
  rewrite (deleteHelper_events_present w lts cluster options Hex),
    teardown_events.
  rewrite doesClusterExist_shape, describeStack_shape, Hst.
  cbn [fst snd stack_block].
  rewrite services_block_events, tasks_block_events, instances_block_events,
    delete_block_events, services_block_value, finish_events.
  rewrite getAllServicesFor_shape, getAllTasksFor_shape,
    getAllInstancesFor_shape.
  cbn [fst snd].
  destruct (Promise_all_map_ok (ecs_listServices w cluster) lts Hls)
    as [found Hfound].
  rewrite Hfound. cbn [value_or].
  destruct (ecs_describeClusters w [cluster]); [discriminate Hdc|].
  destruct (ecs_listTasks w cluster) as [|tasks]; [discriminate Hlt|].
  destruct (ecs_listContainerInstances w cluster) as [|instances];
    [discriminate Hli|].
  destruct (ecs_deleteCluster w cluster); [discriminate Hdel|].
  cbn [value_or].
  rewrite scaleServicesToZero_shape, stopTasks_shape,
    deregisterContainerInstances_shape. cbn [snd].
  destruct (Promise_all_map_ok (fun x => ecs_updateService w cluster x 0)
              (List.concat found) (Hmut ScaleServices)) as [scaled Hscaled].
  destruct (Promise_all_map_ok
              (fun x => ecs_stopTask w x cluster "Cluster being deleted")
              tasks (Hmut StopTasks)) as [stopped Hstopped].
  destruct (Promise_all_map_ok
              (fun x => ecs_deregisterContainerInstance w cluster x true)
              instances (Hmut DeregisterInstances)) as [gone Hgone].
  rewrite Hscaled, Hstopped, Hgone. cbn [value_or].
  unfold no_stack_sequence, pair_if.
  destruct (Promise_all_map_ok (ecs_deleteService w cluster)
              (map serviceName scaled) (Hmut DeleteServices))
    as [removed Hremoved].
  destruct (cfn_describeStacks w (stack_name cluster));
    destruct (0 <? List.length (List.concat found));
    rewrite ?Hremoved;
    destruct (0 <? List.length tasks), (0 <? List.length instances);
    cbn [error_if]; log_simpl; reflexivity.
Qed.

Lemma run_without_stack_emits_the_sequence_witness :
  kinds (fst (ClusterCleanup.deleteHelper
                (demo_world ["web"] None no_stack (0%N, inr [])
                   (fun _ => inr []) (inr (mkCluster "demo" "INACTIVE")))
                [EC2] "demo" (mkOptions None)))
  = [start; error; servicesFound; servicesScaledDown; servicesDeleted;
     clusterDeleted; done].
Proof.
  refine (run_without_stack_emits_the_sequence
            (demo_world ["web"] None no_stack (0%N, inr [])
               (fun _ => inr []) (inr (mkCluster "demo" "INACTIVE")))
            [EC2] "demo" (mkOptions None) _ _ _ _ _ _ _ _); try reflexivity.
  - intros []; reflexivity.
  - intros [] x; reflexivity.
Defined.

(** ** Options and the loop *)

Lemma console_lines_app (l1 l2 : list effect) :
  console_lines (l1 ++ l2) = console_lines l1 ++ console_lines l2.
Proof. apply flat_map_app. Qed.

Lemma console_lines_nil : console_lines [] = [].
Proof. reflexivity. Qed.

Lemma console_lines_Emit (k : ClusterCleanupEvents) (p : payload)
  (l : list effect) : console_lines (Emit k p :: l) = console_lines l.
Proof. reflexivity. Qed.

Lemma console_lines_Call (r : request) (l : list effect) :
  console_lines (Call r :: l) = console_lines l.
Proof. reflexivity. Qed.

Lemma console_lines_Await (l : list effect) :
  console_lines (Await :: l) = console_lines l.
Proof. reflexivity. Qed.

Lemma console_lines_ConsoleLog (p : payload) (l : list effect) :
  console_lines (ConsoleLog p :: l) = p :: console_lines l.
Proof. reflexivity. Qed.

Lemma console_lines_error_if {A} (r : Error + A) :
  console_lines (error_if r) = [].
Proof. now destruct r. Qed.

Lemma console_lines_map_Call {A} (req : A -> request) (xs : list A) :
  console_lines (map (fun x => Call (req x)) xs) = [].
Proof. induction xs as [|x xs IH]; [reflexivity|]. exact IH. Qed.

Lemma console_lines_map_Emit {A} (k : ClusterCleanupEvents) (f : A -> payload)
  (xs : list A) : console_lines (map (fun x => Emit k (f x)) xs) = [].
Proof. induction xs as [|x xs IH]; [reflexivity|]. exact IH. Qed.

Create Rewrite HintDb con.
#[local] Hint Rewrite console_lines_app console_lines_nil console_lines_Emit
  console_lines_Call console_lines_Await console_lines_ConsoleLog
  @console_lines_error_if @console_lines_map_Call : con.

Ltac con_simpl :=
  rewrite <- ?app_assoc; cbn [app];
  autorewrite with con; cbn [app]; rewrite ?app_nil_r.

Section Console.

Variable w : World.
Variable lts : list LaunchType.
Variable cluster : string.

Lemma polling_console (n k : nat) (alreadyDeleted : list string) :
  console_lines (fst (ClusterCleanup.setupCloudFormationPolling w cluster n k
                        alreadyDeleted)) = [].
Proof.
  revert k alreadyDeleted. induction n as [|n IH]; intros k ad;
    [reflexivity|].
  cbn [ClusterCleanup.setupCloudFormationPolling]. unfold bind.
  cbn [fst snd]. rewrite console_lines_app, IH, pollEvent_shape,
    describeStackEvents_shape.
  cbn [fst snd]. con_simpl.
  apply (console_lines_map_Emit resourceDeleted PStackEvent).
Qed.

Lemma finish_console (options : Options) :
  console_lines (fst (finish w cluster options))
  = if truthy (verbose options) then [PElapsed cluster] else [].
Proof.
  unfold finish, await, bind. rewrite deleteCluster_shape.
  cbn [fst snd emit tell ret app].
  destruct (ecs_deleteCluster w cluster), (truthy (verbose options));
    reflexivity.
Qed.

Lemma stack_block_console (options : Options) (stack : option Stack) :
  console_lines (fst (stack_block w cluster options stack))
  = if truthy (verbose options)
       && match stack with
          | Some s => wait_fulfilled_in_time w s
          | None => true
          end
    then [PElapsed cluster] else [].
Proof.
  destruct stack as [s|].
  - rewrite stack_block_log, poll_settled, poll_afterwards,
      poll_while_pending, deleteStack_log.
    unfold wait_fulfilled_in_time.
    destruct (_ <? _)%N;
      [destruct (snd (cfn_waitFor_stackDeleteComplete w (StackId s)))|];
      con_simpl; rewrite ?polling_console, ?finish_console;
      destruct (truthy (verbose options)); reflexivity.
  - cbn [stack_block]. rewrite finish_console, andb_true_r. reflexivity.
Qed.

Lemma teardown_console (options : Options) :
  console_lines (fst (teardown w lts cluster options))
  = console_lines (fst (stack_block w cluster options
                          (snd (ClusterCleanup.describeStack w cluster)))).
Proof.
  rewrite teardown_log.
  assert (Hs : forall st : option Stack,
             console_lines match st with
                           | Some s => [Emit stackFound (PStack s)]
                           | None => []
                           end = []) by (now intros [s|]).
  assert (H1 : forall found,
             console_lines (fst (services_block w cluster found)) = []).
  { intros found. unfold services_block.
    destruct (0 <? List.length found); [|reflexivity].
    unfold await, bind. rewrite scaleServicesToZero_shape.
    cbn [fst snd emit tell ret]. now con_simpl. }
  assert (H2 : forall found,
             console_lines (fst (tasks_block w cluster found)) = []).
  { intros found. unfold tasks_block.
    destruct (0 <? List.length found); [|reflexivity].
    unfold await, bind. rewrite stopTasks_shape.
    cbn [fst snd emit tell ret]. now con_simpl. }
  assert (H3 : forall found,
             console_lines (fst (instances_block w cluster found)) = []).
  { intros found. unfold instances_block.
    destruct (0 <? List.length found); [|reflexivity].
    unfold await, bind. rewrite deregisterContainerInstances_shape.
    cbn [fst snd emit tell ret]. now con_simpl. }
  assert (H4 : forall found services,
             console_lines (fst (delete_block w cluster found services)) = []).
  { intros found services. unfold delete_block.
    destruct (0 <? List.length found); [|reflexivity].
    unfold await, bind. rewrite deleteAllServices_shape.
    cbn [fst snd emit tell ret]. now con_simpl. }
  con_simpl. rewrite Hs, H1, H2, H3, H4.
  rewrite describeStack_shape, getAllServicesFor_shape, getAllTasksFor_shape,
    getAllInstancesFor_shape.
  cbn [fst snd]. con_simpl. reflexivity.
Qed.

Lemma deleteHelper_console (options : Options) :
  console_lines (fst (ClusterCleanup.deleteHelper w lts cluster options))
  = if truthy (verbose options) && reaches_cluster_deletion w cluster
    then [PElapsed cluster] else [].
Proof.
  unfold reaches_cluster_deletion.
  destruct (snd (ClusterCleanup.doesClusterExist w cluster)) eqn:Hex.
  - rewrite (deleteHelper_present w lts cluster options Hex).
    rewrite doesClusterExist_shape. cbn [fst]. con_simpl.
    rewrite teardown_console, stack_block_console. reflexivity.
  - rewrite (deleteHelper_absent w lts cluster options Hex).
    rewrite doesClusterExist_shape. cbn [fst]. con_simpl.
    now rewrite andb_false_r.
Qed.




End Console.


(** ** The early manager *)

Lemma manager_getAllServicesFor_shape (w : World) (lts : list LaunchType)
  (clusterName : string) :
  ECSClusterManager.getAllServicesFor w lts clusterName
  = (map (fun l => Call (ListServices clusterName l)) lts ++ Await
       :: console_if (Promise_all (map (ecs_listServices w clusterName) lts)),
     List.concat
       (value_or (Promise_all (map (ecs_listServices w clusterName) lts)))).
Proof.
  unfold ECSClusterManager.getAllServicesFor, bind.
  rewrite fan_out_log, fan_out_value.
  destruct (Promise_all _);
    cbn [fst snd console_if value_or console_log tell ret].
  - now rewrite <- app_assoc.
  - now rewrite reduce_concat, app_nil_r.
Qed.

Lemma manager_scaleServicesToZero_shape (w : World) (clusterName : string)
  (xs : list string) :
  ECSClusterManager.scaleServicesToZero w clusterName xs
  = (map (fun s => Call (UpdateService clusterName s 0)) xs ++ Await
       :: console_if (Promise_all
                        (map (fun s => ecs_updateService w clusterName s 0)
                           xs)),
     value_or (Promise_all
                 (map (fun s => ecs_updateService w clusterName s 0) xs))).
Proof.
  unfold ECSClusterManager.scaleServicesToZero, bind.
  rewrite fan_out_log, fan_out_value.
  destruct (Promise_all _);
    cbn [fst snd console_if value_or console_log tell ret].
  - now rewrite <- app_assoc.
  - now rewrite reduce_concat_one, app_nil_r.
Qed.

Lemma events_console_if {A} (r : Error + A) : events (console_if r) = [].
Proof. now destruct r. Qed.



(** ** Every call stays within the run *)

Lemma Forall_calls_app (P : request -> Prop) (l1 l2 : list effect) :
  Forall P (calls l1) -> Forall P (calls l2) -> Forall P (calls (l1 ++ l2)).
Proof. intros H1 H2. rewrite calls_app. apply Forall_app. now split. Qed.

Lemma Forall_calls_Call (P : request -> Prop) (r : request)
  (l : list effect) :
  P r -> Forall P (calls l) -> Forall P (calls (Call r :: l)).
Proof. intros H1 H2. rewrite calls_Call. now constructor. Qed.

Lemma Forall_calls_skip (P : request -> Prop) (x : effect) (l : list effect) :
  calls [x] = [] -> Forall P (calls l) -> Forall P (calls (x :: l)).
Proof.
  intros Hx H. change (x :: l) with ([x] ++ l). now rewrite calls_app, Hx.
Qed.

Lemma Forall_calls_map (P : request -> Prop) {A} (req : A -> request)
  (xs : list A) :
  (forall x, P (req x)) -> Forall P (calls (map (fun x => Call (req x)) xs)).
Proof.
  intros H. rewrite calls_map_Call. apply Forall_forall. intros r Hr.
  apply in_map_iff in Hr. destruct Hr as [x [<- _]]. apply H.
Qed.

Lemma Forall_calls_error_if (P : request -> Prop) {A} (r : Error + A) :
  Forall P (calls (error_if r)).
Proof. rewrite calls_error_if. constructor. Qed.

Lemma Forall_calls_nil (P : request -> Prop) : Forall P (calls []).
Proof. constructor. Qed.

Lemma calls_map_Emit {A} (k : ClusterCleanupEvents) (f : A -> payload)
  (xs : list A) : calls (map (fun x => Emit k (f x)) xs) = [].
Proof. induction xs as [|x xs IH]; [reflexivity|]. exact IH. Qed.

Ltac all_calls :=
  repeat first
    [ apply Forall_calls_nil
    | apply Forall_calls_error_if
    | apply Forall_calls_map; intros; cbn [within]; try reflexivity
    | apply Forall_calls_app
    | apply Forall_calls_Call; [cbn [within]; try reflexivity|]
    | apply Forall_calls_skip; [reflexivity|] ].

Section Within.

Variable w : World.
Variable lts : list LaunchType.
Variable cluster : string.
Variable options : Options.

Lemma polling_within (stack : option Stack) (n k : nat)
  (alreadyDeleted : list string) :
  Forall (within cluster stack)
    (calls (fst (ClusterCleanup.setupCloudFormationPolling w cluster n k
                   alreadyDeleted))).
Proof.
  revert k alreadyDeleted. induction n as [|n IH]; intros k ad;
    [constructor|].
  cbn [ClusterCleanup.setupCloudFormationPolling]. unfold bind.
  cbn [fst snd]. apply Forall_calls_app; [|apply IH].
  rewrite pollEvent_shape, describeStackEvents_shape. cbn [fst snd].
  all_calls. rewrite (calls_map_Emit resourceDeleted PStackEvent).
  constructor.
Qed.

Lemma finish_within (stack : option Stack) :
  Forall (within cluster stack) (calls (fst (finish w cluster options))).
Proof. rewrite finish_calls. now repeat constructor. Qed.

Lemma stack_block_within (stack : option Stack) :
  Forall (within cluster stack)
    (calls (fst (stack_block w cluster options stack))).
Proof.
  destruct stack as [s|]; [|apply finish_within].
  rewrite stack_block_log, poll_settled, poll_afterwards, poll_while_pending,
    deleteStack_log.
  assert (Hwait : within cluster (Some s)
                    (WaitForStackDeleteComplete (StackId s)))
    by (now exists s).
  destruct (_ <? _)%N;
    [destruct (snd (cfn_waitFor_stackDeleteComplete w (StackId s)))|];
    repeat first
      [ apply polling_within
      | apply finish_within
      | apply Forall_calls_nil
      | apply Forall_calls_error_if
      | apply Forall_calls_app
      | apply Forall_calls_Call; [exact Hwait || reflexivity|]
      | apply Forall_calls_skip; [reflexivity|] ].
Qed.

Lemma teardown_within :
  Forall (within cluster (snd (ClusterCleanup.describeStack w cluster)))
    (calls (fst (teardown w lts cluster options))).
Proof.
  rewrite teardown_log.
  set (stack := snd (ClusterCleanup.describeStack w cluster)).
  assert (H0 : Forall (within cluster stack)
                 (calls match stack with
                        | Some s => [Emit stackFound (PStack s)]
                        | None => []
                        end)) by (destruct stack; constructor).
  assert (H1 : forall found,
             Forall (within cluster stack)
               (calls (fst (services_block w cluster found)))).
  { intros found. unfold services_block.
    destruct (0 <? List.length found); [|constructor].
    unfold await, bind. rewrite scaleServicesToZero_shape.
    cbn [fst snd emit tell ret]. all_calls. }
  assert (H2 : forall found,
             Forall (within cluster stack)
               (calls (fst (tasks_block w cluster found)))).
  { intros found. unfold tasks_block.
    destruct (0 <? List.length found); [|constructor].
    unfold await, bind. rewrite stopTasks_shape.
    cbn [fst snd emit tell ret]. all_calls. }
  assert (H3 : forall found,
             Forall (within cluster stack)
               (calls (fst (instances_block w cluster found)))).
  { intros found. unfold instances_block.
    destruct (0 <? List.length found); [|constructor].
    unfold await, bind. rewrite deregisterContainerInstances_shape.
    cbn [fst snd emit tell ret]. all_calls. }
  assert (H4 : forall found services,
             Forall (within cluster stack)
               (calls (fst (delete_block w cluster found services)))).
  { intros found services. unfold delete_block.
    destruct (0 <? List.length found); [|constructor].
    unfold await, bind. rewrite deleteAllServices_shape.
    cbn [fst snd emit tell ret]. all_calls. }
  rewrite describeStack_shape, getAllServicesFor_shape, getAllTasksFor_shape,
    getAllInstancesFor_shape.
  cbn [fst].
  repeat first
    [ exact H0 | apply H1 | apply H2 | apply H3 | apply H4
    | apply stack_block_within
    | apply Forall_calls_nil
    | apply Forall_calls_error_if
    | apply Forall_calls_map; intros; reflexivity
    | apply Forall_calls_app
    | apply Forall_calls_Call; [reflexivity|]
    | apply Forall_calls_skip; [reflexivity|] ].
Qed.

End Within.

(** Every call of every run stays within that run: each request to the
    cluster service names the cluster the run was started for, each stack
    request names the stack of the conventional name, except the wait,
    which names the described stack by its identifier, and the resources of
    a stack are never asked for. *)
Theorem every_call_stays_within_the_run :
  forall (w : World) (lts : list LaunchType) (cluster : string)
         (options : Options) (r : request),
    In r (calls (fst (ClusterCleanup.deleteHelper w lts cluster options))) ->
    within cluster (snd (ClusterCleanup.describeStack w cluster)) r.
Proof.
  intros w lts cluster options.
  apply Forall_forall.
  destruct (snd (ClusterCleanup.doesClusterExist w cluster)) eqn:Hex.
  - rewrite (deleteHelper_present w lts cluster options Hex),
      doesClusterExist_shape.
    cbn [fst].
    repeat first
      [ apply teardown_within
      | apply Forall_calls_error_if
      | apply Forall_calls_nil
      | apply Forall_calls_app
      | apply Forall_calls_Call; [reflexivity|]
      | apply Forall_calls_skip; [reflexivity|] ].
  - rewrite (deleteHelper_calls_absent w lts cluster options Hex).
    now repeat constructor.
Qed.

Lemma every_call_stays_within_the_run_witness :
  within "demo"
    (snd (ClusterCleanup.describeStack
            (demo_world ["web"] None (inr [demo_stack]) (25000%N, inr [])
               (fun _ => inr []) (inr (mkCluster "demo" "INACTIVE")))
            "demo"))
    (WaitForStackDeleteComplete (StackId demo_stack)).
Proof.
  refine (every_call_stays_within_the_run
            (demo_world ["web"] None (inr [demo_stack]) (25000%N, inr [])
               (fun _ => inr []) (inr (mkCluster "demo" "INACTIVE")))
            [EC2] "demo" (mkOptions None) _ _).
  vm_compute. tauto.
Defined.

(** ** The entry points *)

(** C2, as the code has it.  Called with the options left out or with an
    options object, the entry point of [ClusterCleanup] completes normally
    with the emitter of the instance, having issued no call and emitted no
    event: it only sets the flag of the emitter and queues the helper.  Of
    the queued run no failure goes to the console, whose only line is the
    one of [verbose], and a run that does not get to the deletion of the
    cluster says so with a [doneWithError] event that carries the error.
    Called with [null] for the options it throws a [TypeError] at its
    caller and queues nothing.  The entry point of [ECSClusterManager]
    hands back a promise, fulfilled with a new emitter, after the listings
    of services have been issued, and emits no event at all. *)
Theorem entry_point_returns_the_emitter_before_any_call :
  forall (w : World) (lts : list LaunchType) (cluster : string)
         (options : option Options) (o : Options)
         (loop : ClusterCleanup.Loop),
    returns_event_source_first
      (ClusterCleanup.entry cluster (provided options))
    /\ ClusterCleanup.deleteClusterAndResources cluster (provided options)
         loop
       = (Normal ThisEvents,
          ClusterCleanup.mkLoop
            (verbose match options with
                     | Some given => given
                     | None => mkOptions None
                     end)
            (ClusterCleanup.immediates loop
             ++ [(cluster, match options with
                           | Some given => given
                           | None => mkOptions None
                           end)])
            (ClusterCleanup.happened loop))
    /\ (forall p,
           In p (console_lines
                   (fst (ClusterCleanup.deleteHelper w lts cluster o))) ->
           p = PElapsed cluster)
    /\ (reaches_cluster_deletion w cluster = true
        \/ exists e,
            In (doneWithError, PError e)
               (events (fst (ClusterCleanup.deleteHelper w lts cluster o))))
    /\ (exists e,
           ClusterCleanup.deleteClusterAndResources cluster Null loop
           = (Throw e, loop)
           /\ name e = "TypeError")
    /\ completed (ECSClusterManager.deleteClusterAndResources w lts cluster)
       = Normal (PromiseFulfilledWith NewEventEmitter)
    /\ done_before_return
         (ECSClusterManager.deleteClusterAndResources w lts cluster)
       = map (fun l => Call (ListServices cluster l)) lts
    /\ events (fst (ECSClusterManager.deleteClusterAndResources_body w lts
                      cluster))
       = [].
Proof.
  intros w lts cluster options o loop.
  split; [destruct options; (split; [now exists ThisEvents|reflexivity])|].
  split; [now destruct options|].
  split.
  { intros p Hp. rewrite deleteHelper_console in Hp.
    destruct (truthy (verbose o) && reaches_cluster_deletion w cluster);
      [|destruct Hp].
    destruct Hp as [<-|[]]. reflexivity. }
  split.
  { destruct (reaches_cluster_deletion w cluster) eqn:E; [now left|right].
    unfold reaches_cluster_deletion in E.
    destruct (snd (ClusterCleanup.doesClusterExist w cluster)) eqn:Hex.
    - cbn [andb] in E.
      destruct (snd (ClusterCleanup.describeStack w cluster)) as [s|] eqn:Hs;
        [|discriminate E].
      unfold wait_fulfilled_in_time in E.
      rewrite (deleteHelper_events_present w lts cluster o Hex),
        teardown_events, Hs, stack_block_events, poll_settled.
      destruct (_ <? _)%N.
      + destruct (snd (cfn_waitFor_stackDeleteComplete w (StackId s)))
          as [e|]; [|discriminate E].
        exists e. log_simpl. find_in.
      + eexists. log_simpl. find_in.
    - exists (not_found cluster).
      rewrite (deleteHelper_absent w lts cluster o Hex). log_simpl. find_in. }
  split; [eexists; split; reflexivity|].
  split; [reflexivity|].
  split.
  - unfold ECSClusterManager.deleteClusterAndResources, call_async,
      ECSClusterManager.deleteClusterAndResources_body,
      ECSClusterManager.getAllServicesFor, await, bind.
    cbn [fst snd done_before_return]. rewrite fan_out_log.
    rewrite <- !app_assoc. apply before_first_await_calls.
  - unfold ECSClusterManager.deleteClusterAndResources_body, await, bind.
    rewrite manager_getAllServicesFor_shape. cbn [fst snd].
    rewrite manager_scaleServicesToZero_shape.
    cbn [fst snd console_log tell ret]. log_simpl.
    now rewrite !events_console_if.
Qed.

(** C2 as stated fails twice.  The caller of the entry point of
    [ECSClusterManager] gets a promise, and a listing has been issued by
    then; and the entry point of [ClusterCleanup], called with [null] for
    the options, throws at its caller. *)
Lemma entry_points_call_first_or_throw :
  ~ returns_event_source_first
      (ECSClusterManager.deleteClusterAndResources
         (demo_world ["web"] None no_stack (0%N, inr []) (fun _ => inr [])
                     (inr (mkCluster "demo" "INACTIVE")))
         [EC2] "demo")
  /\ ~ returns_event_source_first (ClusterCleanup.entry "demo" Null).
Proof.
  split.
  - intros [_ H]. vm_compute in H. discriminate H.
  - intros [[v [H _]] _]. vm_compute in H. discriminate H.
Qed.
